(** * Trust evaluation, caching and monitoring engine

    A shallow embedding of [backend/utils/trust-level.ts],
    [backend/config/platforms.ts] and the [RugPullChecker] class of
    [backend/services/rug-pull-checker.ts].

    Modelling conventions.
    - A JavaScript [number] is an exact rational ([Q]); IEEE-754 rounding,
      NaN and the infinities are outside the model.  [Binary64] redoes the
      score in double arithmetic, and the two agree on every
      integer-valued input in range.
    - A [Date] is its [getTime()] value, an integer number of milliseconds.
    - [Map<string, V>] is [gmap string V]; the [Set<string>] of monitored
      contracts, whose iteration order is insertion order, is a
      duplicate-free [list string].
    - An [async] method is a function on the checker state and the outside
      world that returns either a rejection reason or a value. *)

From Stdlib Require Import QArith Qround ZArith Lia Lqa SpecFloat.
From stdpp Require Import gmap strings list fin_maps finite.

Local Open Scope Q_scope.

(** ** JavaScript numbers *)

Module Num.

Definition gt (a b : Q) : bool := negb (Qle_bool a b).
Definition lt (a b : Q) : bool := negb (Qle_bool b a).
Definition ge (a b : Q) : bool := Qle_bool b a.
Definition le (a b : Q) : bool := Qle_bool a b.

(** [Math.round]: nearest integer, a tie goes towards plus infinity. *)
Definition Math_round (x : Q) : Q := inject_Z (Qfloor (x + (1 # 2))).

Definition Math_min (a b : Q) : Q := if lt b a then b else a.
Definition Math_max (a b : Q) : Q := if gt b a then b else a.

End Num.

(** ** backend/types/defi.d.ts *)

Inductive TrustLevel : Set := red | yellow | green.

#[global] Instance TrustLevel_eq_dec : EqDecision TrustLevel.
Proof. solve_decision. Defined.

Record SafetyIndicators : Set := {
  rugPullRisk : Q;
  liquidityScore : Q;
  holderDistribution : Q;
  contractVerified : bool;
  honeypotDetected : bool;
  hasRenounced : bool
}.

(** [Omit<ContractMetadata, 'trustLevel'>] *)
Record ContractMetadata : Set := {
  name : string;
  address : string;
  deployer : string;
  contractAge : Q;
  transactionVolume : Q;
  safetyScore : Q
}.

(** ** backend/config/platforms.ts *)

Record TierThresholds : Set := {
  minSafetyScore : Q;
  maxRugPullRisk : Q;
  minContractAge : Q;
  minTransactionVolume : Q
}.

Record TrustLevelThresholds : Set := {
  th_green : TierThresholds;
  th_yellow : TierThresholds
}.

Definition TRUST_LEVEL_THRESHOLDS : TrustLevelThresholds := {|
  th_green := {| minSafetyScore := 80; maxRugPullRisk := 20;
                 minContractAge := 30; minTransactionVolume := 100000 |};
  th_yellow := {| minSafetyScore := 50; maxRugPullRisk := 50;
                  minContractAge := 7; minTransactionVolume := 10000 |}
|}.

(** [SAFETY_CHECK_INTERVALS.rugPullCheck], in milliseconds. *)
Definition rugPullCheck : Z := (5 * 60 * 1000)%Z.

(** ** backend/utils/trust-level.ts *)

Definition calculateTrustLevel
    (metadata : ContractMetadata) (indicators : SafetyIndicators) : TrustLevel :=
  let safetyScore := safetyScore metadata in
  let contractAge := contractAge metadata in
  let transactionVolume := transactionVolume metadata in
  let rugPullRisk := rugPullRisk indicators in
  if honeypotDetected indicators || negb (contractVerified indicators) then red
  else if Num.gt rugPullRisk (maxRugPullRisk (th_yellow TRUST_LEVEL_THRESHOLDS)) then red
  else if Num.ge safetyScore (minSafetyScore (th_green TRUST_LEVEL_THRESHOLDS))
          && Num.le rugPullRisk (maxRugPullRisk (th_green TRUST_LEVEL_THRESHOLDS))
          && Num.ge contractAge (minContractAge (th_green TRUST_LEVEL_THRESHOLDS))
          && Num.ge transactionVolume (minTransactionVolume (th_green TRUST_LEVEL_THRESHOLDS))
       then green
  else if Num.ge safetyScore (minSafetyScore (th_yellow TRUST_LEVEL_THRESHOLDS))
          && Num.le rugPullRisk (maxRugPullRisk (th_yellow TRUST_LEVEL_THRESHOLDS))
          && Num.ge contractAge (minContractAge (th_yellow TRUST_LEVEL_THRESHOLDS))
          && Num.ge transactionVolume (minTransactionVolume (th_yellow TRUST_LEVEL_THRESHOLDS))
       then yellow
  else red.

Definition calculateSafetyScore (indicators : SafetyIndicators) : Q :=
  let score := 50 in
  let score := if contractVerified indicators then score + 15 else score in
  let score := if hasRenounced indicators then score + 10 else score in
  let score := if Num.gt (liquidityScore indicators) 70 then score + 10 else score in
  let score := if Num.gt (holderDistribution indicators) 60 then score + 10 else score in
  let score := if honeypotDetected indicators then score - 40 else score in
  let score := score - rugPullRisk indicators * (3 # 10) in
  Num.Math_max 0 (Num.Math_min 100 (Num.Math_round score)).

(** [signals.push(tag)] when [cond] holds. *)
Definition push_if (cond : bool) (tag : string) (signals : list string) : list string :=
  if cond then signals ++ [tag] else signals.

Definition generateMiterSignals
    (indicators : SafetyIndicators) (trustLevel : TrustLevel) : list string :=
  let signals := [] in
  let signals := push_if (bool_decide (trustLevel = red)) "HIGH_RISK" signals in
  let signals := push_if (honeypotDetected indicators) "HONEYPOT_DETECTED" signals in
  let signals := push_if (negb (contractVerified indicators)) "UNVERIFIED_CONTRACT" signals in
  let signals :=
    if Num.gt (rugPullRisk indicators) 70 then signals ++ ["CRITICAL_RUG_RISK"]
    else if Num.gt (rugPullRisk indicators) 40 then signals ++ ["ELEVATED_RUG_RISK"]
    else signals in
  let signals := push_if (Num.lt (liquidityScore indicators) 30) "LOW_LIQUIDITY" signals in
  let signals := push_if (Num.lt (holderDistribution indicators) 30) "CONCENTRATED_HOLDERS" signals in
  let signals := push_if (negb (hasRenounced indicators)) "OWNERSHIP_NOT_RENOUNCED" signals in
  signals.

(** ** backend/services/rug-pull-checker.ts *)

Record RugPullCheckResult : Set := {
  contractAddress : string;
  isUnsafe : bool;
  riskLevel : TrustLevel;
  indicators : SafetyIndicators;
  miterSignals : list string;
  timestamp : Z
}.

(** The two private fields of the class. *)
Record RugPullChecker : Type := {
  checkCache : gmap string RugPullCheckResult;
  monitoredContracts : list string
}.

(** [new RugPullChecker()] *)
Definition new_RugPullChecker : RugPullChecker :=
  {| checkCache := ∅; monitoredContracts := [] |}.

(** A rejection reason (the value carried by a rejected promise). *)
Definition Error : Set := string.

(** What the service reads from outside itself: the clock behind
    [new Date()] and the data source behind [analyzeContract].  Awaiting the
    data source lets the world move on (time passes) and may reject.  The
    body of [analyzeContract] in the source is a placeholder, given below as
    [placeholder_analyzeContract]. *)
Class Runtime : Type := {
  World : Type;
  Date_now : World → Z;
  analyzeContract : string → World → (Error + SafetyIndicators) * World
}.

Definition calculateRugPullRisk (contractAddress : string) : Q := 30.

Definition placeholder_analyzeContract (contractAddress : string) : SafetyIndicators := {|
  rugPullRisk := calculateRugPullRisk contractAddress;
  liquidityScore := 75;
  holderDistribution := 70;
  contractVerified := true;
  honeypotDetected := false;
  hasRenounced := false
|}.

(** The runtime of the source as it stands: the world is the clock reading
    and the placeholder never rejects. *)
Definition placeholder_runtime : Runtime := {|
  World := Z;
  Date_now := λ w, w;
  analyzeContract := λ a w, (inr (placeholder_analyzeContract a), w)
|}.

Inductive PromiseSettledResult (A : Type) : Type :=
  | fulfilled (value : A)
  | rejected (reason : Error).
Arguments fulfilled {A} value.
Arguments rejected {A} reason.

Definition settled {A : Type} (o : Error + A) : PromiseSettledResult A :=
  match o with inl e => rejected e | inr v => fulfilled v end.

Record FlagResult : Set := { shouldBlock : bool; reason : string }.

Definition TrustLevel_to_string (l : TrustLevel) : string :=
  match l with red => "red" | yellow => "yellow" | green => "green" end.

(** The part of [checkContract] between the provider's answer and the
    cache write: score, classify, derive the signals, stamp. *)
Definition build_result
    (contractAddress : string) (indicators : SafetyIndicators) (now : Z)
    : RugPullCheckResult :=
  let safetyScore := calculateSafetyScore indicators in
  let metadata := {| name := "Contract"; address := contractAddress;
                     deployer := "Unknown"; contractAge := 0;
                     transactionVolume := 0; safetyScore := safetyScore |} in
  let riskLevel := calculateTrustLevel metadata indicators in
  let miterSignals := generateMiterSignals indicators riskLevel in
  {| contractAddress := contractAddress;
     isUnsafe := bool_decide (riskLevel = red);
     riskLevel := riskLevel;
     indicators := indicators;
     miterSignals := miterSignals;
     timestamp := now |}.

Section Service.
Context {R : Runtime}.

(** An [async] method body: checker state and world in, outcome and the
    new state and world out. *)
Definition Async (A : Type) : Type :=
  RugPullChecker * World → (Error + A) * (RugPullChecker * World).

Definition isCacheValid (w : World) (timestamp : Z) : bool :=
  let now := Date_now w in
  let diff := (now - timestamp)%Z in
  (diff <? rugPullCheck)%Z.

(** [cached && this.isCacheValid(cached.timestamp)], giving [cached]
    when the test passes. *)
Definition cache_probe (this : RugPullChecker) (w : World) (contractAddress : string)
    : option RugPullCheckResult :=
  match checkCache this !! contractAddress with
  | Some cached => if isCacheValid w (timestamp cached) then Some cached else None
  | None => None
  end.

(** [checkContract] from its comment "Perform fresh check" on. *)
Definition fresh_check (contractAddress : string) : Async RugPullCheckResult :=
  λ '(this, w),
    let '(answer, w1) := analyzeContract contractAddress w in
    match answer with
    | inl e => (inl e, (this, w1))
    | inr indicators =>
        let result := build_result contractAddress indicators (Date_now w1) in
        (inr result,
         ({| checkCache := <[contractAddress := result]> (checkCache this);
             monitoredContracts := monitoredContracts this |}, w1))
    end.

Definition checkContract (contractAddress : string) : Async RugPullCheckResult :=
  λ '(this, w),
    match cache_probe this w contractAddress with
    | Some cached => (inr cached, (this, w))
    | None => fresh_check contractAddress (this, w)
    end.

Definition startMonitoring (contractAddress : string) : Async () :=
  λ '(this, w),
    if bool_decide (contractAddress ∈ monitoredContracts this) then (inr (), (this, w))
    else
      let this1 := {| checkCache := checkCache this;
                      monitoredContracts := monitoredContracts this ++ [contractAddress] |} in
      match checkContract contractAddress (this1, w) with
      | (inl e, s) => (inl e, s)
      | (inr _, s) => (inr (), s)
      end.

Definition stopMonitoring (contractAddress : string) (this : RugPullChecker)
    : RugPullChecker :=
  {| checkCache := delete contractAddress (checkCache this);
     monitoredContracts :=
       filter (λ a, a ≠ contractAddress) (monitoredContracts this) |}.

Definition getMonitoredContracts (this : RugPullChecker) : list string :=
  monitoredContracts this.

(** [Promise.allSettled(addresses.map((address) => this.checkContract(address)))].
    Every call first runs up to its [await]: the cache tests are all made
    on the state and clock of entry, before any call writes the cache.
    The calls that missed then resume in call order. *)
Fixpoint resume (calls : list (string * option RugPullCheckResult))
    (s : RugPullChecker * World)
    : list (PromiseSettledResult RugPullCheckResult) * (RugPullChecker * World) :=
  match calls with
  | [] => ([], s)
  | (_, Some cached) :: calls =>
      let '(rs, s') := resume calls s in (fulfilled cached :: rs, s')
  | (a, None) :: calls =>
      let '(o, s1) := fresh_check a s in
      let '(rs, s2) := resume calls s1 in (settled o :: rs, s2)
  end.

Definition allSettled_checkContract (addresses : list string)
    (s : RugPullChecker * World)
    : list (PromiseSettledResult RugPullCheckResult) * (RugPullChecker * World) :=
  resume (map (λ a, (a, cache_probe s.1 s.2 a)) addresses) s.

Definition syncLiveMetadata : Async () :=
  λ s,
    let '(_, s') := allSettled_checkContract (monitoredContracts s.1) s in
    (inr (), s').

Definition flagUnsafeInteractions (contractAddress : string) : Async FlagResult :=
  λ s,
    match checkContract contractAddress s with
    | (inl e, s') => (inl e, s')
    | (inr result, s') =>
        if isUnsafe result then
          (inr {| shouldBlock := true;
                  reason := "Contract flagged as "
                            +:+ TrustLevel_to_string (riskLevel result)
                            +:+ ": "
                            +:+ String.concat ", " (miterSignals result) |}, s')
        else if honeypotDetected (indicators result) then
          (inr {| shouldBlock := true;
                  reason := "Honeypot detected - transaction may not be reversible" |}, s')
        else if Num.gt (rugPullRisk (indicators result)) 70 then
          (inr {| shouldBlock := true;
                  reason := "Critical rug pull risk detected" |}, s')
        else
          (inr {| shouldBlock := false;
                  reason := "Contract passed safety checks" |}, s')
    end.

(** The [forEach] over the settled results: [rankings.set] for the
    fulfilled ones, by index. *)
Definition collect_rankings (contractAddresses : list string)
    (results : list (PromiseSettledResult RugPullCheckResult))
    : gmap string TrustLevel :=
  foldl (λ rankings '(a, result),
           match result with
           | fulfilled value => <[a := riskLevel value]> rankings
           | rejected _ => rankings
           end)
        ∅ (zip contractAddresses results).

Definition getTrustRankings (contractAddresses : list string)
    : Async (gmap string TrustLevel) :=
  λ s,
    let '(results, s') := allSettled_checkContract contractAddresses s in
    (inr (collect_rankings contractAddresses results), s').

(** States of the singleton [rugPullChecker] that the public methods can
    produce, whatever the world does between calls. *)
Inductive reachable : RugPullChecker → Prop :=
  | reach_new : reachable new_RugPullChecker
  | reach_check a this w :
      reachable this → reachable (checkContract a (this, w)).2.1
  | reach_start a this w :
      reachable this → reachable (startMonitoring a (this, w)).2.1
  | reach_stop a this :
      reachable this → reachable (stopMonitoring a this)
  | reach_sync this w :
      reachable this → reachable (syncLiveMetadata (this, w)).2.1
  | reach_flag a this w :
      reachable this → reachable (flagUnsafeInteractions a (this, w)).2.1
  | reach_rank l this w :
      reachable this → reachable (getTrustRankings l (this, w)).2.1.

(** Every cache entry is a result [checkContract] built for its key. *)
Definition cache_wf (this : RugPullChecker) : Prop :=
  map_Forall
    (λ k r, r = build_result k (indicators r) (timestamp r))
    (checkCache this).

End Service.

(** ** The score as the specification words it *)

#[global] Instance Qlt_decision (x y : Q) : Decision (x < y).
Proof. destruct (Qlt_le_dec x y); [left | right]; [done | by apply Qle_not_lt]. Defined.

(** Iverson bracket: 1 when the proposition holds, else 0. *)
Definition bracket (P : Prop) `{Decision P} : Q := if decide P then 1 else 0.

Definition spec_raw_score (i : SafetyIndicators) : Q :=
  50 + 15 * bracket (contractVerified i = true)
     + 10 * bracket (hasRenounced i = true)
     + 10 * bracket (70 < liquidityScore i)
     + 10 * bracket (60 < holderDistribution i)
     - 40 * bracket (honeypotDetected i = true)
     - (3 # 10) * rugPullRisk i.

(** [n] is [x] rounded to the nearest integer, a tie going up. *)
Definition rounds_to (x : Q) (n : Z) : Prop :=
  inject_Z n - (1 # 2) <= x ∧ x < inject_Z n + (1 # 2).

Definition clamp (lo hi n : Z) : Z :=
  if (n <? lo)%Z then lo else if (hi <? n)%Z then hi else n.


(** ** The score in IEEE-754 double arithmetic *)

#[global] Instance spec_float_eq_dec : EqDecision spec_float.
Proof. solve_decision. Defined.

Module Binary64.

Definition prec : Z := 53.
Definition emax : Z := 1024.

Definition of_Z (n : Z) : spec_float := binary_normalize prec emax n 0 false.

(** The double nearest to 0.3, 5404319552844595 * 2^-54. *)
Definition three_tenths : spec_float := S754_finite false 5404319552844595 (-54).

Definition add : spec_float → spec_float → spec_float := SFadd prec emax.
Definition sub : spec_float → spec_float → spec_float := SFsub prec emax.
Definition mul : spec_float → spec_float → spec_float := SFmul prec emax.
Definition gt (a b : spec_float) : bool := SFltb b a.

(** The exact value of a finite double. *)
Definition to_Q (x : spec_float) : option Q :=
  match x with
  | S754_zero _ => Some 0
  | S754_finite s m e =>
      let v := match e with
               | Zneg p => Zpos m # Pos.pow 2 p
               | _ => inject_Z (Zpos m * 2 ^ e)
               end in
      Some (if s then - v else v)
  | S754_infinity _ | S754_nan => None
  end.

(** [Math.round]; NaN and the infinities are returned as they are.  The
    sign of a zero result is not tracked. *)
Definition Math_round (x : spec_float) : spec_float :=
  match to_Q x with
  | Some q => of_Z (Qfloor (q + (1 # 2)))
  | None => x
  end.

Definition Math_min (a b : spec_float) : spec_float :=
  match SFcompare b a with
  | Some Lt => b
  | Some _ => a
  | None => S754_nan
  end.

Definition Math_max (a b : spec_float) : spec_float :=
  match SFcompare a b with
  | Some Lt => b
  | Some _ => a
  | None => S754_nan
  end.

Record SafetyIndicators : Set := {
  rugPullRisk : spec_float;
  liquidityScore : spec_float;
  holderDistribution : spec_float;
  contractVerified : bool;
  honeypotDetected : bool;
  hasRenounced : bool
}.

Definition calculateSafetyScore (indicators : SafetyIndicators) : spec_float :=
  let score := of_Z 50 in
  let score := if contractVerified indicators then add score (of_Z 15) else score in
  let score := if hasRenounced indicators then add score (of_Z 10) else score in
  let score :=
    if gt (liquidityScore indicators) (of_Z 70) then add score (of_Z 10) else score in
  let score :=
    if gt (holderDistribution indicators) (of_Z 60) then add score (of_Z 10) else score in
  let score := if honeypotDetected indicators then sub score (of_Z 40) else score in
  let score := sub score (mul (rugPullRisk indicators) three_tenths) in
  Math_max (of_Z 0) (Math_min (of_Z 100) (Math_round score)).

(** Indicators whose numeric fields are integers. *)
Definition integral (r l h : Z) (v hp rn : bool) : SafetyIndicators := {|
  rugPullRisk := of_Z r; liquidityScore := of_Z l; holderDistribution := of_Z h;
  contractVerified := v; honeypotDetected := hp; hasRenounced := rn |}.

End Binary64.

Definition integral (r l h : Z) (v hp rn : bool) : SafetyIndicators := {|
  rugPullRisk := inject_Z r; liquidityScore := inject_Z l;
  holderDistribution := inject_Z h;
  contractVerified := v; honeypotDetected := hp; hasRenounced := rn |}.

(** The integers 0, 1, ..., 100. *)
Definition percent_values : list Z := Z.of_nat <$> seq 0 101.

(** ** The advisory signals as the specification words them *)

Inductive Signal : Set :=
  | HIGH_RISK
  | HONEYPOT_DETECTED
  | UNVERIFIED_CONTRACT
  | CRITICAL_RUG_RISK
  | ELEVATED_RUG_RISK
  | LOW_LIQUIDITY
  | CONCENTRATED_HOLDERS
  | OWNERSHIP_NOT_RENOUNCED.

#[global] Instance Signal_eq_dec : EqDecision Signal.
Proof. solve_decision. Defined.

Definition signal_tag (s : Signal) : string :=
  match s with
  | HIGH_RISK => "HIGH_RISK"
  | HONEYPOT_DETECTED => "HONEYPOT_DETECTED"
  | UNVERIFIED_CONTRACT => "UNVERIFIED_CONTRACT"
  | CRITICAL_RUG_RISK => "CRITICAL_RUG_RISK"
  | ELEVATED_RUG_RISK => "ELEVATED_RUG_RISK"
  | LOW_LIQUIDITY => "LOW_LIQUIDITY"
  | CONCENTRATED_HOLDERS => "CONCENTRATED_HOLDERS"
  | OWNERSHIP_NOT_RENOUNCED => "OWNERSHIP_NOT_RENOUNCED"
  end.

(** The fixed display order. *)
Definition signal_order : list Signal :=
  [HIGH_RISK; HONEYPOT_DETECTED; UNVERIFIED_CONTRACT; CRITICAL_RUG_RISK;
   ELEVATED_RUG_RISK; LOW_LIQUIDITY; CONCENTRATED_HOLDERS; OWNERSHIP_NOT_RENOUNCED].

(** When a signal is due. *)
Definition signal_due (i : SafetyIndicators) (tier : TrustLevel) (s : Signal) : bool :=
  match s with
  | HIGH_RISK => bool_decide (tier = red)
  | HONEYPOT_DETECTED => honeypotDetected i
  | UNVERIFIED_CONTRACT => negb (contractVerified i)
  | CRITICAL_RUG_RISK => Num.gt (rugPullRisk i) 70
  | ELEVATED_RUG_RISK => negb (Num.gt (rugPullRisk i) 70) && Num.gt (rugPullRisk i) 40
  | LOW_LIQUIDITY => Num.lt (liquidityScore i) 30
  | CONCENTRATED_HOLDERS => Num.lt (holderDistribution i) 30
  | OWNERSHIP_NOT_RENOUNCED => negb (hasRenounced i)
  end.

Definition spec_signals (i : SafetyIndicators) (tier : TrustLevel) : list string :=
  signal_tag <$> List.filter (signal_due i tier) signal_order.

(** Every risk factor present at once. *)
Definition all_flags : SafetyIndicators := {|
  rugPullRisk := 80; liquidityScore := 10; holderDistribution := 10;
  contractVerified := false; honeypotDetected := true; hasRenounced := false |}.

(** A runtime whose provider rejects for one address and answers like the
    placeholder for the others. *)
Definition failing_runtime (bad : string) : Runtime := {|
  World := Z;
  Date_now := λ w, w;
  analyzeContract := λ a w,
    if decide (a = bad) then (inl "provider error", w)
    else (inr (placeholder_analyzeContract a), w)
|}.

(** ** Sample inputs *)

Definition at_green_boundary : ContractMetadata := {|
  name := "Contract"; address := "a"; deployer := "Unknown";
  contractAge := 30; transactionVolume := 100000; safetyScore := 80 |}.

Definition at_yellow_boundary : ContractMetadata := {|
  name := "Contract"; address := "a"; deployer := "Unknown";
  contractAge := 7; transactionVolume := 10000; safetyScore := 50 |}.

Definition risk_20 : SafetyIndicators := {|
  rugPullRisk := 20; liquidityScore := 75; holderDistribution := 70;
  contractVerified := true; honeypotDetected := false; hasRenounced := false |}.

Definition scenario : SafetyIndicators := {|
  rugPullRisk := 30; liquidityScore := 75; holderDistribution := 70;
  contractVerified := true; honeypotDetected := false; hasRenounced := false |}.


(** The singleton after one [checkContract "a"] at clock reading 1000,
    under the runtime of the source. *)
Definition checked_at_1000 : RugPullChecker :=
  (checkContract (R := placeholder_runtime) "a" (new_RugPullChecker, 1000%Z)).2.1.

(** Monitoring three addresses, the second of which the provider rejects. *)
Definition monitoring_abc : RugPullChecker :=
  let s0 := (new_RugPullChecker, 1000%Z) in
  let s1 := (startMonitoring (R := failing_runtime "b") "a" s0).2 in
  let s2 := (startMonitoring (R := failing_runtime "b") "b" s1).2 in
  (startMonitoring (R := failing_runtime "b") "c" s2).2.1.

(** * The rest of the code *)

From Stdlib Require Import Qabs.

(** ** Order of the tiers *)

(** red below yellow below green. *)
Definition tier_rank (l : TrustLevel) : nat :=
  match l with red => 0 | yellow => 1 | green => 2 end.

(** [i'] is at least as good as [i] on every input of the score. *)
Definition no_worse (i i' : SafetyIndicators) : Prop :=
  rugPullRisk i' <= rugPullRisk i
  ∧ (contractVerified i = true → contractVerified i' = true)
  ∧ (hasRenounced i = true → hasRenounced i' = true)
  ∧ (70 < liquidityScore i → 70 < liquidityScore i')
  ∧ (60 < holderDistribution i → 60 < holderDistribution i')
  ∧ (honeypotDetected i' = true → honeypotDetected i = true).

(** Sample inputs for the classifier: a young and a mature contract, a
    risky and a clean set of indicators. *)
Definition young_contract : ContractMetadata := {|
  name := "Contract"; address := "a"; deployer := "Unknown";
  contractAge := 10; transactionVolume := 20000; safetyScore := 60 |}.

Definition risk_45 : SafetyIndicators := {|
  rugPullRisk := 45; liquidityScore := 50; holderDistribution := 50;
  contractVerified := true; honeypotDetected := false; hasRenounced := false |}.

(** ** A JavaScript [Map] that is iterated

    [Map] keeps its keys in the order of their first insertion; [set] on a
    key that is present replaces the value where it stands. *)

Module JsMap.

Definition t (V : Type) : Type := list (string * V).

Definition empty {V : Type} : t V := [].

Fixpoint get {V : Type} (k : string) (m : t V) : option V :=
  match m with
  | [] => None
  | (k', v) :: m => if decide (k' = k) then Some v else get k m
  end.

Definition has {V : Type} (k : string) (m : t V) : bool :=
  match get k m with Some _ => true | None => false end.

Fixpoint set {V : Type} (k : string) (v : V) (m : t V) : t V :=
  match m with
  | [] => [(k, v)]
  | (k', v') :: m => if decide (k' = k) then (k, v) :: m else (k', v') :: set k v m
  end.

(** [Array.from(m.values())] *)
Definition values {V : Type} (m : t V) : list V := m.*2.

Definition keys {V : Type} (m : t V) : list string := m.*1.

End JsMap.

(** ** backend/services/jupiter-integration.ts *)

Module Jupiter.

(** [JupiterQuote]; the elements of [route] are of type [any] and never
    looked at. *)
Record JupiterQuote {any : Type} : Type := {
  inputMint : string;
  outputMint : string;
  inAmount : string;
  outAmount : string;
  priceImpactPct : Q;
  slippageBps : Q;
  route : list any
}.
Arguments JupiterQuote : clear implicits.

Record SafetyVerdict : Set := { safe : bool; warnings : list string }.

Definition verifyTransactionSafety {any : Type} (quote : JupiterQuote any)
    : SafetyVerdict :=
  let warnings := [] in
  let warnings :=
    push_if (Num.gt (priceImpactPct quote) 5)
      "High price impact detected (>5%)" warnings in
  let warnings :=
    push_if (Num.gt (slippageBps quote) 100)
      "High slippage tolerance (>1%)" warnings in
  let warnings :=
    push_if (3 <? length (route quote))%nat
      "Complex routing may increase failure risk" warnings in
  {| safe := bool_decide (length warnings = 0%nat); warnings := warnings |}.

(** [getJupiterProgramAddress] *)
Definition getJupiterProgramAddress : string :=
  "JUP4Fb2cqiRUcaTHdrPC8h2gNsA2ETXiPDD33WcGuJB".

End Jupiter.

(** ** backend/services/contract-analyzer.ts, the pure part *)

Module Analyzer.

Inductive Action : Set := buy | sell | hold | avoid.

#[global] Instance Action_eq_dec : EqDecision Action.
Proof. solve_decision. Defined.

Definition determineRecommendedAction
    (safetyLevel : TrustLevel) (profitability : Q) (slippageSafe : bool) : Action :=
  if bool_decide (safetyLevel = red) || negb slippageSafe then avoid
  else if bool_decide (safetyLevel = yellow) then
    (if Num.gt profitability 60 then hold else avoid)
  else if Num.gt profitability 70 then buy
  else if Num.gt profitability 40 then hold
  else sell.

Inductive TokenPlatform : Set := radium | orca.

#[global] Instance TokenPlatform_eq_dec : EqDecision TokenPlatform.
Proof. solve_decision. Defined.

Record TokenLibraryEntry : Set := {
  symbol : string;
  address : string;
  decimals : Q;
  platform : TokenPlatform;
  verified : bool
}.

Definition radiumTokens : list TokenLibraryEntry :=
  [{| symbol := "RAY"; address := "4k3Dyjzvzp8eMZWUXbBCjEvwSkkk59S5iCNLY3QrkX6R";
      decimals := 6; platform := radium; verified := true |}].

Definition orcaTokens : list TokenLibraryEntry :=
  [{| symbol := "ORCA"; address := "orcaEKTdK7LKz57vaAYr9QeNsVEPfiu6QeMU1kektZE";
      decimals := 6; platform := orca; verified := true |}].

(** [this.tokenLibrary] *)
Definition TokenLibrary : Type := JsMap.t TokenLibraryEntry.

Definition addTokenToLibrary (token : TokenLibraryEntry) (tokenLibrary : TokenLibrary)
    : TokenLibrary :=
  JsMap.set (address token) token tokenLibrary.

(** [initializeTokenLibrary], from the empty library of a new analyzer. *)
Definition initializeTokenLibrary : TokenLibrary :=
  foldl (λ lib token, addTokenToLibrary token lib) JsMap.empty
        (radiumTokens ++ orcaTokens).

Definition getToken (address : string) (tokenLibrary : TokenLibrary)
    : option TokenLibraryEntry :=
  JsMap.get address tokenLibrary.

Definition getVerifiedTokensByPlatform (p : TokenPlatform) (tokenLibrary : TokenLibrary)
    : list TokenLibraryEntry :=
  List.filter (λ token, bool_decide (platform token = p) && verified token)
              (JsMap.values tokenLibrary).

(** [checkSlippageSafety]: its [try] body cannot throw. *)
Definition checkSlippageSafety (contractAddress : string) (tokenLibrary : TokenLibrary)
    : bool :=
  JsMap.has contractAddress tokenLibrary.

End Analyzer.

(** ** Sample inputs for the above *)

Definition quote_at_limits : Jupiter.JupiterQuote string := {|
  Jupiter.inputMint := "in"; Jupiter.outputMint := "out";
  Jupiter.inAmount := "1000"; Jupiter.outAmount := "0";
  Jupiter.priceImpactPct := 5; Jupiter.slippageBps := 100;
  Jupiter.route := ["r1"; "r2"; "r3"] |}.

Definition quote_over_limits : Jupiter.JupiterQuote string := {|
  Jupiter.inputMint := "in"; Jupiter.outputMint := "out";
  Jupiter.inAmount := "1000"; Jupiter.outAmount := "0";
  Jupiter.priceImpactPct := 6; Jupiter.slippageBps := 101;
  Jupiter.route := ["r1"; "r2"; "r3"; "r4"] |}.

Definition unverified_token : Analyzer.TokenLibraryEntry := {|
  Analyzer.symbol := "SCAM"; Analyzer.address := "scam-address";
  Analyzer.decimals := 9; Analyzer.platform := Analyzer.radium;
  Analyzer.verified := false |}.

Definition ray_token : Analyzer.TokenLibraryEntry := {|
  Analyzer.symbol := "RAY";
  Analyzer.address := "4k3Dyjzvzp8eMZWUXbBCjEvwSkkk59S5iCNLY3QrkX6R";
  Analyzer.decimals := 6; Analyzer.platform := Analyzer.radium;
  Analyzer.verified := true |}.

(** An entry for the address of RAY that is marked unverified. *)
Definition ray_unverified : Analyzer.TokenLibraryEntry := {|
  Analyzer.symbol := "RAY";
  Analyzer.address := "4k3Dyjzvzp8eMZWUXbBCjEvwSkkk59S5iCNLY3QrkX6R";
  Analyzer.decimals := 6; Analyzer.platform := Analyzer.radium;
  Analyzer.verified := false |}.

(** Token libraries a running analyzer can hold: the initial one, and
    whatever [addTokenToLibrary] makes of it. *)
Inductive library_reachable : Analyzer.TokenLibrary → Prop :=
  | library_initial : library_reachable Analyzer.initializeTokenLibrary
  | library_add token lib :
      library_reachable lib → library_reachable (Analyzer.addTokenToLibrary token lib).

(** ** backend/services/contract-analyzer.ts, the stateful part *)

Module ContractAnalyzer.

Record ContractAnalysis : Set := {
  address : string;
  safetyAssessment : TrustLevel;
  profitabilityScore : Q;
  gasEstimate : Q;
  slippageSafety : bool;
  recommendedAction : Analyzer.Action;
  updatedAt : Z
}.

(** The two private fields of the class. *)
Record t : Type := {
  analysisCache : gmap string ContractAnalysis;
  tokenLibrary : Analyzer.TokenLibrary
}.

(** [new ContractAnalyzer()] *)
Definition new : t :=
  {| analysisCache := ∅; tokenLibrary := Analyzer.initializeTokenLibrary |}.

(** The placeholder bodies of [estimateGasCosts] and
    [analyzeProfitability]; neither [try] body can throw. *)
Definition estimateGasCosts (contractAddress : string) : Q := 1 # 1000.
Definition analyzeProfitability (contractAddress : string) : Q := 50.

(** [assessContractSafety] from the awaited [rugCheck] to the analysis
    record, [now] being the reading of [new Date()]. *)
Definition build_analysis (contractAddress : string) (rugCheck : RugPullCheckResult)
    (tokenLibrary : Analyzer.TokenLibrary) (now : Z) : ContractAnalysis :=
  let gasEstimate := estimateGasCosts contractAddress in
  let profitability := analyzeProfitability contractAddress in
  let slippageSafety := Analyzer.checkSlippageSafety contractAddress tokenLibrary in
  {| address := contractAddress;
     safetyAssessment := riskLevel rugCheck;
     profitabilityScore := profitability;
     gasEstimate := gasEstimate;
     slippageSafety := slippageSafety;
     recommendedAction :=
       Analyzer.determineRecommendedAction (riskLevel rugCheck) profitability slippageSafety;
     updatedAt := now |}.

Record SwapRoute : Set := {
  safe : bool;
  route : list string;
  estimatedOutput : Q
}.

Section Service.
Context {R : Runtime}.

(** The analyzer, the [rugPullChecker] singleton it imports, the world. *)
Definition State : Type := t * (RugPullChecker * World).

(** The analyzer's own [isCacheValid]: ten minutes. *)
Definition isCacheValid (w : World) (updatedAt : Z) : bool :=
  let now := Date_now w in
  let diff := (now - updatedAt)%Z in
  (diff <? 10 * 60 * 1000)%Z.

(** [cached && this.isCacheValid(cached.updatedAt)] *)
Definition analysis_probe (this : t) (w : World) (contractAddress : string)
    : option ContractAnalysis :=
  match analysisCache this !! contractAddress with
  | Some cached => if isCacheValid w (updatedAt cached) then Some cached else None
  | None => None
  end.

Definition store_analysis (contractAddress : string) (analysis : ContractAnalysis)
    (this : t) : t :=
  {| analysisCache := <[contractAddress := analysis]> (analysisCache this);
     tokenLibrary := tokenLibrary this |}.

(** The awaits on [estimateGasCosts], [analyzeProfitability] and
    [checkSlippageSafety] resolve at once: the clock read for [updatedAt]
    is the one the rug check left. *)
Definition assessContractSafety (contractAddress : string)
    : State → (Error + ContractAnalysis) * State :=
  λ '(this, s),
    match analysis_probe this s.2 contractAddress with
    | Some cached => (inr cached, (this, s))
    | None =>
        match checkContract contractAddress s with
        | (inl e, s') => (inl e, (this, s'))
        | (inr rugCheck, s') =>
            let analysis :=
              build_analysis contractAddress rugCheck (tokenLibrary this) (Date_now s'.2) in
            (inr analysis, (store_analysis contractAddress analysis this, s'))
        end
    end.

(** How far a call of [assessContractSafety] in a batch gets before its
    first real wait, as decided on the state of entry: it returns a fresh
    analysis, or it has a fresh rug check in hand, or it waits for the
    provider. *)
Inductive Plan : Type :=
  | Served (cached : ContractAnalysis)
  | Checked (rugCheck : RugPullCheckResult)
  | Pending.

Definition plan (this : t) (s : RugPullChecker * World) (contractAddress : string) : Plan :=
  match analysis_probe this s.2 contractAddress with
  | Some cached => Served cached
  | None =>
      match cache_probe s.1 s.2 contractAddress with
      | Some rugCheck => Checked rugCheck
      | None => Pending
      end
  end.

(** A call of a batch runs on: one with a rug check in hand builds its
    analysis on the clock of entry [now0]; one that waits resumes when the
    provider answers. *)
Definition resume_one (now0 : Z) (call : string * Plan) (st : State)
    : PromiseSettledResult ContractAnalysis * State :=
  match call with
  | (_, Served cached) => (fulfilled cached, st)
  | (a, Checked rugCheck) =>
      let analysis := build_analysis a rugCheck (tokenLibrary st.1) now0 in
      (fulfilled analysis, (store_analysis a analysis st.1, st.2))
  | (a, Pending) =>
      match fresh_check a st.2 with
      | (inl e, s') => (rejected e, (st.1, s'))
      | (inr rugCheck, s') =>
          let analysis := build_analysis a rugCheck (tokenLibrary st.1) (Date_now s'.2) in
          (fulfilled analysis, (store_analysis a analysis st.1, s'))
      end
  end.

(** The calls resume in call order. *)
Fixpoint resume (now0 : Z) (calls : list (string * Plan)) (st : State)
    : list (PromiseSettledResult ContractAnalysis) * State :=
  match calls with
  | [] => ([], st)
  | call :: calls =>
      let '(r, st1) := resume_one now0 call st in
      let '(rs, st2) := resume now0 calls st1 in
      (r :: rs, st2)
  end.

(** [addresses.map((addr) => this.assessContractSafety(addr))], settled. *)
Definition settle_assessments (addresses : list string) (st : State)
    : list (PromiseSettledResult ContractAnalysis) * State :=
  resume (Date_now st.2.2) (map (λ a, (a, plan st.1 st.2 a)) addresses) st.

(** [Promise.all] of two promises: both fulfilled, or the first rejection. *)
Definition all2 {A : Type} (r1 r2 : PromiseSettledResult A) : Error + (A * A) :=
  match r1, r2 with
  | fulfilled v1, fulfilled v2 => inr (v1, v2)
  | rejected e, _ => inl e
  | _, rejected e => inl e
  end.

Definition getSwapRoute (inputToken outputToken : string) (amount : Q)
    : State → (Error + SwapRoute) * State :=
  λ st,
    let now0 := Date_now st.2.2 in
    let call1 := (inputToken, plan st.1 st.2 inputToken) in
    let call2 := (outputToken, plan st.1 st.2 outputToken) in
    let '(r1, st1) := resume_one now0 call1 st in
    let '(r2, st2) := resume_one now0 call2 st1 in
    match all2 r1 r2 with
    | inl e => (inl e, st2)
    | inr (inputAnalysis, outputAnalysis) =>
        let safe :=
          negb (bool_decide (safetyAssessment inputAnalysis = red))
          && negb (bool_decide (safetyAssessment outputAnalysis = red))
          && slippageSafety inputAnalysis
          && slippageSafety outputAnalysis in
        (inr {| safe := safe;
                route := [inputToken; outputToken];
                estimatedOutput := amount |}, st2)
    end.

(** [batchAnalyzeContracts]: the fulfilled analyses by address, in the
    order the addresses first come. *)
Definition batchAnalyzeContracts (addresses : list string)
    : State → (Error + JsMap.t ContractAnalysis) * State :=
  λ st,
    let '(analyses, st') := settle_assessments addresses st in
    (inr (foldl (λ results '(a, result),
                   match result with
                   | fulfilled value => JsMap.set a value results
                   | rejected _ => results
                   end)
                JsMap.empty (zip addresses analyses)), st').

(** Every cached analysis is one [assessContractSafety] built from a rug
    check that [checkContract] built. *)
Definition cache_wf (this : t) : Prop :=
  map_Forall
    (λ k an, ∃ rugCheck lib,
       rugCheck = build_result k (indicators rugCheck) (timestamp rugCheck)
       ∧ an = build_analysis k rugCheck lib (updatedAt an))
    (analysisCache this).

End Service.

End ContractAnalyzer.

(** An analyzer that has assessed "a" at clock reading 1000, with the
    checker that served it. *)
Definition assessed_at_1000 : ContractAnalyzer.State (R := placeholder_runtime) :=
  (ContractAnalyzer.assessContractSafety (R := placeholder_runtime) "a"
     (ContractAnalyzer.new, (new_RugPullChecker, 1000%Z))).2.

(** ** backend/services/platform-aggregator.ts *)

Module JsMath.

Definition abs (x : Q) : Q := Qabs x.

(** [Math.ceil] *)
Definition ceil (x : Q) : Q := inject_Z (Qceiling x).

End JsMath.

Module PlatformAggregator.

(** The fields [enrichContractMetadata] reads from its [rawContract: any].
    [None] is a missing field; [deployedAt] is the time value of
    [new Date(rawContract.deployedAt)], taken to be a valid date. *)
Record RawContract : Set := {
  name : option string;
  address : string;
  deployer : option string;
  deployedAt : Z;
  volume : option Q
}.

(** [ContractMetadata], with its [trustLevel]. *)
Record Enriched : Set := {
  metadata : ContractMetadata;
  trustLevel : TrustLevel
}.

(** [s || fallback] on an optional string: missing and empty are falsy. *)
Definition string_or (s : option string) (fallback : string) : string :=
  match s with
  | None | Some EmptyString => fallback
  | Some s => s
  end.

(** [n || 0] on an optional number: missing and zero are falsy. *)
Definition number_or_0 (n : option Q) : Q :=
  match n with
  | None => 0
  | Some n => if Qeq_bool n 0 then 0 else n
  end.

(** The placeholder body of [fetchSafetyIndicators]. *)
Definition fetchSafetyIndicators (address : string) : SafetyIndicators := {|
  rugPullRisk := 0;
  liquidityScore := 100;
  holderDistribution := 100;
  contractVerified := true;
  honeypotDetected := false;
  hasRenounced := true
|}.

Section Service.
Context {R : Runtime}.

Definition calculateContractAge (w : World) (deployedAt : Z) : Q :=
  let deployed := deployedAt in
  let now := Date_now w in
  let diffTime := JsMath.abs (inject_Z now - inject_Z deployed) in
  JsMath.ceil (diffTime / (1000 * 60 * 60 * 24)).

Definition enrichContractMetadata (rawContract : RawContract) (platform : string)
    (w : World) : Enriched :=
  let indicators := fetchSafetyIndicators (address rawContract) in
  let safetyScore := calculateSafetyScore indicators in
  let metadata :=
    Build_ContractMetadata
      (string_or (name rawContract) "Unknown")
      (address rawContract)
      (string_or (deployer rawContract) "Unknown")
      (calculateContractAge w (deployedAt rawContract))
      (number_or_0 (volume rawContract))
      safetyScore in
  let trustLevel := calculateTrustLevel metadata indicators in
  {| metadata := metadata; trustLevel := trustLevel |}.

End Service.

End PlatformAggregator.

(** A raw contract without name or volume, deployed 30 days after the
    clock reading 1000 it is enriched at. *)
Definition raw_future : PlatformAggregator.RawContract := {|
  PlatformAggregator.name := Some "";
  PlatformAggregator.address := "a";
  PlatformAggregator.deployer := None;
  PlatformAggregator.deployedAt := 1000 + 30 * 86400000;
  PlatformAggregator.volume := Some 250000 |}.

(** *** The platform lists *)

Module Platforms.

Inductive Platform : Set := radium | orca | pump | meteors.

#[global] Instance Platform_eq_dec : EqDecision Platform.
Proof. solve_decision. Defined.

(** The key a platform has in [PLATFORM_CONFIGS] and in [platformLists]. *)
Definition key (p : Platform) : string :=
  match p with
  | radium => "radium" | orca => "orca" | pump => "pump" | meteors => "meteors"
  end.

(** [PLATFORM_CONFIGS[platform].apiEndpoint] *)
Definition apiEndpoint (p : Platform) : string :=
  match p with
  | radium => "https://api.raydium.io/v2"
  | orca => "https://api.orca.so"
  | pump => "https://api.pump.fun"
  | meteors => "https://api.meteors.app"
  end.

Record PlatformList : Set := {
  platform : Platform;
  contracts : list PlatformAggregator.Enriched;
  lastUpdated : Z
}.

(** What [fetchContractsFromPlatform] stands for: the platform's API, which
    may reject.  The body in the source is a mock, given below as
    [mock_source]. *)
Class Source `{R : Runtime} : Type := {
  fetchContractsFromPlatform :
    string → World → (Error + list PlatformAggregator.Enriched) * World
}.

Definition mock_source `{R : Runtime} : Source := {|
  fetchContractsFromPlatform := λ apiEndpoint w, (inr [], w)
|}.

(** An API that rejects for one endpoint and answers like the mock for the
    others. *)
Definition failing_source `{R : Runtime} (bad : string) : Source := {|
  fetchContractsFromPlatform := λ apiEndpoint w,
    if decide (apiEndpoint = bad) then (inl "platform down", w) else (inr [], w)
|}.

Section Service.
Context `{S : Source}.

(** [this.platformLists] and the world. *)
Definition State : Type := JsMap.t PlatformList * World.

Definition fetchPlatformList (p : Platform) : State → (Error + PlatformList) * State :=
  λ '(platformLists, w),
    let '(answer, w1) := fetchContractsFromPlatform (apiEndpoint p) w in
    match answer with
    | inl error => (inl error, (platformLists, w1))
    | inr contracts =>
        let platformList :=
          {| platform := p; contracts := contracts; lastUpdated := Date_now w1 |} in
        (inr platformList, (JsMap.set (key p) platformList platformLists, w1))
    end.

(** [Promise.allSettled(platforms.map(...))]: no call reads the state before
    its await; the calls resume in call order. *)
Fixpoint settle_fetches (platforms : list Platform) (st : State)
    : list (PromiseSettledResult PlatformList) * State :=
  match platforms with
  | [] => ([], st)
  | p :: platforms =>
      let '(o, st1) := fetchPlatformList p st in
      let '(rs, st2) := settle_fetches platforms st1 in
      (settled o :: rs, st2)
  end.

(** The [for] loop over the settled results. *)
Definition fulfilled_values {A : Type} (results : list (PromiseSettledResult A)) : list A :=
  omap (λ result, match result with fulfilled value => Some value | rejected _ => None end)
       results.

Definition fetchAllPlatforms : State → (Error + list PlatformList) * State :=
  λ st,
    let platforms := [radium; orca; pump; meteors] in
    let '(results, st') := settle_fetches platforms st in
    (inr (fulfilled_values results), st').


Definition getAllPlatformLists (platformLists : JsMap.t PlatformList)
    : list PlatformList :=
  JsMap.values platformLists.

End Service.

End Platforms.

(** The platform lists after a first refresh at clock reading 1000 with
    every platform answering. *)
Definition platforms_fetched_at_1000 : JsMap.t Platforms.PlatformList :=
  (Platforms.fetchAllPlatforms (R := placeholder_runtime)
     (S := Platforms.mock_source) ([], 1000%Z)).2.1.

(** ** Jupiter quotes and swaps, and backend/api/wallet-endpoints.ts *)

(** Built-ins of the JavaScript runtime the wallet code calls: number to
    string and back, and the random part of a transaction id,
    [Math.random().toString(36).substring(2, 11)], as the world gives it. *)
Class JsBuiltins `{R : Runtime} : Type := {
  Number_toString : Q → string;
  parseFloat : string → Q;
  random_id_part : World → string
}.

(** Built-ins to run the examples with: they print every number as "n",
    read every string as 0 and draw the same id part each time. *)
Definition sample_builtins : JsBuiltins (R := placeholder_runtime) := {|
  Number_toString := λ _, "n";
  parseFloat := λ _, 0;
  random_id_part := λ _, "abcdefghi"
|}.

Module Wallet.

Inductive Status : Set := pending | completed | failed.

Record WalletTransaction : Set := {
  id : string;
  walletAddress : string;
  transactionHash : option string;
  status : Status;
  amount : Q;
  token : string;
  safetyCheck : bool;
  profitability : option Q;
  timestamp : Z
}.

(** The options object of [getUltraQuote]; [None] is a field left out. *)
Record UltraOptions : Set := {
  opt_slippageBps : option Q;
  onlyDirectRoutes : option bool;
  asLegacyTransaction : option bool
}.

(** [n || d] on an optional number: missing and zero are falsy. *)
Definition number_or (n : option Q) (d : Q) : Q :=
  match n with
  | None => d
  | Some n => if Qeq_bool n 0 then d else n
  end.

(** The shape every endpoint answers with. *)
Record Response (A : Type) : Type := {
  success : bool;
  data : option A;
  error : option string
}.
Arguments success {A} _.
Arguments data {A} _.
Arguments error {A} _.

Definition ok {A : Type} (x : A) : Response A :=
  {| success := true; data := Some x; error := None |}.

Definition fail {A : Type} (message : string) : Response A :=
  {| success := false; data := None; error := Some message |}.

(** [{ ...quote, safetyWarnings }] *)
Record QuoteWithWarnings {any : Type} : Type := {
  quote : Jupiter.JupiterQuote any;
  safetyWarnings : list string
}.
Arguments QuoteWithWarnings : clear implicits.

(** The parameters of [getQuote]. *)
Record QuoteParams : Set := {
  inputMint : string;
  outputMint : string;
  quote_amount : Q;
  slippageBps : option Q;
  useUltraApi : option bool
}.

Section Service.
Context `{B : JsBuiltins} {any : Type}.

(** [getBasicQuote]; its parameter [slippageBps] defaults to 50 when it is
    left out. *)
Definition getBasicQuote (inputMint outputMint : string) (amount : Q)
    (slippageBps : option Q) : Jupiter.JupiterQuote any :=
  let slippageBps := match slippageBps with None => 50 | Some b => b end in
  {| Jupiter.inputMint := inputMint;
     Jupiter.outputMint := outputMint;
     Jupiter.inAmount := Number_toString amount;
     Jupiter.outAmount := "0";
     Jupiter.priceImpactPct := 0;
     Jupiter.slippageBps := slippageBps;
     Jupiter.route := [] |}.

(** [getUltraQuote]; the slippage is [options?.slippageBps || 50]. *)
Definition getUltraQuote (inputMint outputMint : string) (amount : Q)
    (options : option UltraOptions) : Jupiter.JupiterQuote any :=
  let slippageBps :=
    number_or (match options with Some o => opt_slippageBps o | None => None end) 50 in
  {| Jupiter.inputMint := inputMint;
     Jupiter.outputMint := outputMint;
     Jupiter.inAmount := Number_toString amount;
     Jupiter.outAmount := "0";
     Jupiter.priceImpactPct := 0;
     Jupiter.slippageBps := slippageBps;
     Jupiter.route := [] |}.

Definition generateTransactionId (w : World) : string :=
  "tx_" +:+ Number_toString (inject_Z (Date_now w)) +:+ "_" +:+ random_id_part w.

(** [jupiterIntegration.executeSwap] *)
Definition jupiter_executeSwap (quote : Jupiter.JupiterQuote any) (walletAddress : string)
    (w : World) : WalletTransaction :=
  {| id := generateTransactionId w;
     walletAddress := walletAddress;
     transactionHash := None;
     status := pending;
     amount := parseFloat (Jupiter.inAmount quote);
     token := Jupiter.inputMint quote;
     safetyCheck := true;
     profitability := None;
     timestamp := Date_now w |}.

(** [this.transactions] *)
Definition Transactions : Type := JsMap.t WalletTransaction.

(** [WalletEndpoints.executeSwap]; nothing in its [try] body can throw. *)
Definition executeSwap (quote : Jupiter.JupiterQuote any) (walletAddress : string)
    (transactions : Transactions) (w : World)
    : Response WalletTransaction * Transactions :=
  let safetyCheck := Jupiter.verifyTransactionSafety quote in
  if negb (Jupiter.safe safetyCheck) then
    (fail ("Transaction not safe: "
           +:+ String.concat ", " (Jupiter.warnings safetyCheck)),
     transactions)
  else
    let transaction := jupiter_executeSwap quote walletAddress w in
    (ok transaction, JsMap.set (id transaction) transaction transactions).

Definition getTransaction (transactionId : string) (transactions : Transactions)
    : Response WalletTransaction :=
  match JsMap.get transactionId transactions with
  | None => fail "Transaction not found"
  | Some transaction => ok transaction
  end.

Definition getWalletTransactions (address : string) (transactions : Transactions)
    : Response (list WalletTransaction) :=
  ok (List.filter (λ tx, bool_decide (walletAddress tx = address))
                  (JsMap.values transactions)).

End Service.

End Wallet.

(** Transaction stores a running endpoint can hold: empty at first, then
    whatever [executeSwap] leaves. *)
Inductive transactions_reachable `{B : JsBuiltins} {any : Type}
    : Wallet.Transactions → Prop :=
  | transactions_new : transactions_reachable JsMap.empty
  | transactions_swap (quote : Jupiter.JupiterQuote any) walletAddress txs w :
      transactions_reachable txs →
      transactions_reachable (Wallet.executeSwap quote walletAddress txs w).2.

(** *** The quote endpoint and its safety gate *)

(** The verdict of [flagUnsafeInteractions] on a result in hand. *)
Definition flag_of_result (result : RugPullCheckResult) : FlagResult :=
  if isUnsafe result then
    {| shouldBlock := true;
       reason := "Contract flagged as "
                 +:+ TrustLevel_to_string (riskLevel result)
                 +:+ ": "
                 +:+ String.concat ", " (miterSignals result) |}
  else if honeypotDetected (indicators result) then
    {| shouldBlock := true;
       reason := "Honeypot detected - transaction may not be reversible" |}
  else if Num.gt (rugPullRisk (indicators result)) 70 then
    {| shouldBlock := true; reason := "Critical rug pull risk detected" |}
  else
    {| shouldBlock := false; reason := "Contract passed safety checks" |}.

(** [error instanceof Error ? error.message : 'Unknown error'], a
    rejection reason being the message of an [Error]. *)
Definition error_message (e : Error) : string := e.

Module QuoteEndpoint.

Section Service.
Context `{B : JsBuiltins} {any : Type}.

(** One call of a batch of [checkContract]s running on from its cache
    test: served, or resumed when the provider answers. *)
Definition resume_call (call : string * option RugPullCheckResult)
    (s : RugPullChecker * World)
    : PromiseSettledResult RugPullCheckResult * (RugPullChecker * World) :=
  match call with
  | (_, Some cached) => (fulfilled cached, s)
  | (a, None) => let '(o, s1) := fresh_check a s in (settled o, s1)
  end.

(** [WalletEndpoints.getQuote].  The two [flagUnsafeInteractions] calls
    under [Promise.all] make their cache tests on the state of entry and
    resume in call order. *)
Definition getQuote (params : Wallet.QuoteParams)
    : RugPullChecker * World
      → Wallet.Response (Wallet.QuoteWithWarnings any) * (RugPullChecker * World) :=
  λ s,
    let call1 := (Wallet.inputMint params, cache_probe s.1 s.2 (Wallet.inputMint params)) in
    let call2 := (Wallet.outputMint params, cache_probe s.1 s.2 (Wallet.outputMint params)) in
    let '(r1, s1) := resume_call call1 s in
    let '(r2, s2) := resume_call call2 s1 in
    match ContractAnalyzer.all2 r1 r2 with
    | inl error => (Wallet.fail (error_message error), s2)
    | inr (inputResult, outputResult) =>
        let inputCheck := flag_of_result inputResult in
        let outputCheck := flag_of_result outputResult in
        if shouldBlock inputCheck then
          (Wallet.fail ("Input token unsafe: " +:+ reason inputCheck), s2)
        else if shouldBlock outputCheck then
          (Wallet.fail ("Output token unsafe: " +:+ reason outputCheck), s2)
        else
          let quote :=
            match Wallet.useUltraApi params with
            | Some true =>
                Wallet.getUltraQuote (Wallet.inputMint params) (Wallet.outputMint params)
                  (Wallet.quote_amount params)
                  (Some {| Wallet.opt_slippageBps := Wallet.slippageBps params;
                           Wallet.onlyDirectRoutes := None;
                           Wallet.asLegacyTransaction := None |})
            | _ =>
                Wallet.getBasicQuote (Wallet.inputMint params) (Wallet.outputMint params)
                  (Wallet.quote_amount params) (Wallet.slippageBps params)
            end in
          let safetyCheck := Jupiter.verifyTransactionSafety quote in
          (Wallet.ok {| Wallet.quote := quote;
                        Wallet.safetyWarnings := Jupiter.warnings safetyCheck |}, s2)
    end.

End Service.

End QuoteEndpoint.

(** ** backend/api/contract-endpoints.ts: the token endpoints *)

Module ContractEndpoints.

(** The shape [addToken] answers with. *)
Record MessageResponse : Set := {
  success : bool;
  message : option string;
  error : option string
}.

(** [!s] on a string: only the empty string is falsy. *)
Definition is_empty (s : string) : bool :=
  match s with EmptyString => true | String _ _ => false end.

(** [addToken].  In a [TokenLibraryEntry] the platform is one of two
    non-empty strings and the decimals are a number, so of the four tests
    [!token.address || !token.symbol || !token.platform ||
    token.decimals == null] only the first two can fire. *)
Definition addToken (token : Analyzer.TokenLibraryEntry) (lib : Analyzer.TokenLibrary)
    : MessageResponse * Analyzer.TokenLibrary :=
  if is_empty (Analyzer.address token) || is_empty (Analyzer.symbol token) then
    ({| success := false; message := None;
        error := Some (error_message "Invalid token data") |}, lib)
  else
    ({| success := true;
        message := Some ("Token " +:+ Analyzer.symbol token +:+ " added to library");
        error := None |},
     Analyzer.addTokenToLibrary token lib).

Definition getTokenInfo (address : string) (lib : Analyzer.TokenLibrary)
    : Wallet.Response Analyzer.TokenLibraryEntry :=
  match Analyzer.getToken address lib with
  | None => Wallet.fail "Token not found in library"
  | Some token => Wallet.ok token
  end.

(** Libraries the endpoint can produce from the initial one. *)
Inductive endpoint_reachable : Analyzer.TokenLibrary → Prop :=
  | endpoint_initial : endpoint_reachable Analyzer.initializeTokenLibrary
  | endpoint_add token lib :
      endpoint_reachable lib → endpoint_reachable (addToken token lib).2.

End ContractEndpoints.

(** ** Sample inputs for the wallet *)

Definition zero_slippage_params : Wallet.QuoteParams := {|
  Wallet.inputMint := "in"; Wallet.outputMint := "out";
  Wallet.quote_amount := 1000; Wallet.slippageBps := Some 0;
  Wallet.useUltraApi := Some true |}.

(** The store after one swap of [quote_at_limits] for wallet "w1" at clock
    reading 1000. *)
Definition one_swap : Wallet.Transactions :=
  (Wallet.executeSwap
      (R := placeholder_runtime) (B := sample_builtins) quote_at_limits "w1" JsMap.empty 1000%Z).2.

(** * Properties *)

(** ** Numbers *)

Module NumFacts.

Lemma gt_spec a b : Num.gt a b = true ↔ b < a.
Proof.
  unfold Num.gt. rewrite negb_true_iff, <- not_true_iff_false, Qle_bool_iff.
  split; [apply Qnot_le_lt | apply Qlt_not_le].
Qed.

Lemma lt_spec a b : Num.lt a b = true ↔ a < b.
Proof. apply gt_spec. Qed.

Lemma ge_spec a b : Num.ge a b = true ↔ b <= a.
Proof. apply Qle_bool_iff. Qed.

Lemma le_spec a b : Num.le a b = true ↔ a <= b.
Proof. apply Qle_bool_iff. Qed.

Lemma gt_false a b : Num.gt a b = false ↔ a <= b.
Proof.
  unfold Num.gt. rewrite negb_false_iff. apply Qle_bool_iff.
Qed.

Lemma gt_bracket a b : (if Num.gt a b then 1 else 0) = bracket (b < a).
Proof.
  unfold bracket. destruct (Num.gt a b) eqn:E; case_decide; try done.
  - apply gt_spec in E. contradiction.
  - apply gt_false in E. exfalso. by apply (Qlt_not_le b a).
Qed.

Lemma bool_bracket (b : bool) : (if b then 1 else 0) = bracket (b = true).
Proof. unfold bracket. destruct b; case_decide; congruence. Qed.


Lemma rounds_to_unique x n m : rounds_to x n → rounds_to x m → n = m.
Proof.
  intros [Hn1 Hn2] [Hm1 Hm2].
  assert (inject_Z n < inject_Z m + 1) as H1 by lra.
  assert (inject_Z m < inject_Z n + 1) as H2 by lra.
  change (inject_Z m + 1) with (inject_Z m + inject_Z 1) in H1.
  change (inject_Z n + 1) with (inject_Z n + inject_Z 1) in H2.
  rewrite <- inject_Z_plus, <- Zlt_Qlt in H1, H2.
  lia.
Qed.

Lemma Math_round_comp x y : x == y → Num.Math_round x = Num.Math_round y.
Proof. intros H. unfold Num.Math_round. by rewrite H. Qed.


(** [Math.max(lo, Math.min(hi, n))] on integers is [clamp]. *)
Lemma Math_max_min_clamp lo hi n :
  (lo ≤ hi)%Z →
  Num.Math_max (inject_Z lo) (Num.Math_min (inject_Z hi) (inject_Z n))
  = inject_Z (clamp lo hi n).
Proof.
  intros H. unfold Num.Math_max, Num.Math_min, clamp.
  destruct (Num.lt (inject_Z n) (inject_Z hi)) eqn:E1.
  - apply lt_spec in E1. rewrite <- Zlt_Qlt in E1.
    destruct (Num.gt (inject_Z n) (inject_Z lo)) eqn:E2.
    + apply gt_spec in E2. rewrite <- Zlt_Qlt in E2.
      destruct (Z.ltb_spec n lo); [lia |]. destruct (Z.ltb_spec hi n); [lia | done].
    + apply gt_false in E2. rewrite <- Zle_Qle in E2.
      destruct (Z.ltb_spec n lo); [done |].
      destruct (Z.ltb_spec hi n); [lia |]. f_equal. lia.
  - apply not_true_iff_false in E1. rewrite lt_spec, <- Zlt_Qlt in E1.
    destruct (Num.gt (inject_Z hi) (inject_Z lo)) eqn:E2.
    + apply gt_spec in E2. rewrite <- Zlt_Qlt in E2.
      destruct (Z.ltb_spec n lo); [lia |].
      destruct (Z.ltb_spec hi n); [done |]. f_equal. lia.
    + apply gt_false in E2. rewrite <- Zle_Qle in E2.
      assert (lo = hi) as -> by lia.
      destruct (Z.ltb_spec n hi); [done |].
      destruct (Z.ltb_spec hi n); [done |]. f_equal. lia.
Qed.

End NumFacts.

(** ** The safety score *)



(** The running [score] variable, just before [Math.round], holds the
    closed formula. *)
Lemma calculateSafetyScore_raw i :
  calculateSafetyScore i
  = Num.Math_max 0 (Num.Math_min 100 (Num.Math_round (spec_raw_score i))).
Proof.
  unfold calculateSafetyScore. do 2 f_equal. apply NumFacts.Math_round_comp.
  unfold spec_raw_score.
  rewrite <- !NumFacts.bool_bracket, <- !NumFacts.gt_bracket.
  destruct (contractVerified i), (hasRenounced i), (honeypotDetected i),
    (Num.gt (liquidityScore i) 70), (Num.gt (holderDistribution i) 60); ring.
Qed.



Example calculateSafetyScore_scenario : calculateSafetyScore scenario = 76.
Proof. reflexivity. Qed.

(** A tie (48.5) is rounded up, and inputs far out of range are clamped. *)
Example calculateSafetyScore_tie :
  calculateSafetyScore
    {| rugPullRisk := 5; liquidityScore := 0; holderDistribution := 0;
       contractVerified := false; honeypotDetected := false; hasRenounced := false |}
  = 49.
Proof. reflexivity. Qed.

Example calculateSafetyScore_clamped_low :
  calculateSafetyScore
    {| rugPullRisk := 100; liquidityScore := 0; holderDistribution := 0;
       contractVerified := false; honeypotDetected := true; hasRenounced := false |}
  = 0.
Proof. reflexivity. Qed.

(** ** Agreement with double arithmetic *)

Lemma elem_of_percent_values z : (0 ≤ z ≤ 100)%Z → z ∈ percent_values.
Proof.
  intros Hz. unfold percent_values. apply list_elem_of_fmap.
  exists (Z.to_nat z). split; [lia |]. apply elem_of_seq. lia.
Qed.

Lemma Binary64_gt_agrees z c :
  (0 ≤ z ≤ 100)%Z → c = 70%Z ∨ c = 60%Z →
  Binary64.gt (Binary64.of_Z z) (Binary64.of_Z c) = Num.gt (inject_Z z) (inject_Z c).
Proof.
  intros Hz Hc. apply elem_of_percent_values in Hz. revert z Hz.
  refine (proj1 (Forall_forall _ _) _).
  destruct Hc as [-> | ->]; apply (bool_decide_unpack _); vm_compute; exact I.
Qed.

(** On indicators whose three numeric fields are integers between 0 and
    100, the score computed in doubles is the score computed in exact
    arithmetic. *)
Lemma Binary64_calculateSafetyScore_agrees r l h v hp rn :
  (0 ≤ r ≤ 100)%Z → (0 ≤ l ≤ 100)%Z → (0 ≤ h ≤ 100)%Z →
  Binary64.calculateSafetyScore (Binary64.integral r l h v hp rn)
  = Binary64.of_Z (Qfloor (calculateSafetyScore (integral r l h v hp rn))).
Proof.
  intros Hr Hl Hh.
  unfold Binary64.calculateSafetyScore, calculateSafetyScore, Binary64.integral, integral.
  cbn [Binary64.rugPullRisk Binary64.liquidityScore Binary64.holderDistribution
       Binary64.contractVerified Binary64.honeypotDetected Binary64.hasRenounced
       rugPullRisk liquidityScore holderDistribution contractVerified
       honeypotDetected hasRenounced].
  rewrite (Binary64_gt_agrees l 70), (Binary64_gt_agrees h 60) by auto.
  change (inject_Z 70) with 70. change (inject_Z 60) with 60.
  generalize (Num.gt (inject_Z l) 70) as b3, (Num.gt (inject_Z h) 60) as b4.
  apply elem_of_percent_values in Hr. revert v hp rn. revert r Hr.
  refine (proj1 (Forall_forall _ _) _).
  apply (bool_decide_unpack _). vm_compute. exact I.
Qed.

(** The agreement stops at the integers: one unit in the last place above
    5 the rounded product lands on the tie 48.5, which exact arithmetic
    stays below. *)
Example Binary64_next_after_5 :
  Binary64.calculateSafetyScore
    {| Binary64.rugPullRisk := S754_finite false 5629499534213121 (-50);
       Binary64.liquidityScore := Binary64.of_Z 0;
       Binary64.holderDistribution := Binary64.of_Z 0;
       Binary64.contractVerified := false; Binary64.honeypotDetected := false;
       Binary64.hasRenounced := false |}
  = Binary64.of_Z 49
  ∧ calculateSafetyScore
      {| rugPullRisk := 5629499534213121 # 1125899906842624;
         liquidityScore := 0; holderDistribution := 0;
         contractVerified := false; honeypotDetected := false;
         hasRenounced := false |}
    = 48.
Proof. split; reflexivity. Qed.

(** ** The tier classifier *)

Lemma calculateTrustLevel_green m i :
  contractVerified i = true → honeypotDetected i = false →
  80 <= safetyScore m → rugPullRisk i <= 20 →
  30 <= contractAge m → 100000 <= transactionVolume m →
  calculateTrustLevel m i = green.
Proof.
  intros Hv Hh Hs Hr Ha Ht. unfold calculateTrustLevel. rewrite Hv, Hh. simpl.
  assert (Num.gt (rugPullRisk i) 50 = false) as -> by (apply NumFacts.gt_false; lra).
  apply NumFacts.ge_spec in Hs as ->. apply NumFacts.le_spec in Hr as ->.
  apply NumFacts.ge_spec in Ha as ->. by apply NumFacts.ge_spec in Ht as ->.
Qed.

Lemma calculateTrustLevel_at_least_yellow m i :
  contractVerified i = true → honeypotDetected i = false →
  50 <= safetyScore m → rugPullRisk i <= 50 →
  7 <= contractAge m → 10000 <= transactionVolume m →
  calculateTrustLevel m i ≠ red.
Proof.
  intros Hv Hh Hs Hr Ha Ht. unfold calculateTrustLevel. rewrite Hv, Hh. simpl.
  assert (Num.gt (rugPullRisk i) 50 = false) as -> by (by apply NumFacts.gt_false).
  case_match; [done |].
  apply NumFacts.ge_spec in Hs as ->. apply NumFacts.le_spec in Hr as ->.
  apply NumFacts.ge_spec in Ha as ->. by apply NumFacts.ge_spec in Ht as ->.
Qed.

Lemma calculateTrustLevel_not_green m i :
  safetyScore m < 80 ∨ 20 < rugPullRisk i
  ∨ contractAge m < 30 ∨ transactionVolume m < 100000 →
  calculateTrustLevel m i ≠ green.
Proof.
  intros H. unfold calculateTrustLevel.
  repeat case_match; try done.
  simpl in *. repeat match goal with
    | H : _ && _ = true |- _ => apply andb_true_iff in H as [? ?]
    | H : Num.ge _ _ = true |- _ => apply NumFacts.ge_spec in H
    | H : Num.le _ _ = true |- _ => apply NumFacts.le_spec in H
    end.
  lra.
Qed.

(** C2. A detected honeypot or an unverified contract is classified red,
    whatever the metadata and the other indicators are. *)
Theorem calculateTrustLevel_veto (m : ContractMetadata) (i : SafetyIndicators) :
  honeypotDetected i = true ∨ contractVerified i = false →
  calculateTrustLevel m i = red.
Proof.
  intros [H | H]; unfold calculateTrustLevel; rewrite H; [done |].
  by rewrite orb_true_r.
Qed.

(** An unverified contract with a perfect record otherwise. *)
Lemma calculateTrustLevel_veto_witness :
  calculateTrustLevel
    {| name := "Contract"; address := "a"; deployer := "Unknown";
       contractAge := 365; transactionVolume := 1000000; safetyScore := 100 |}
    {| rugPullRisk := 0; liquidityScore := 100; holderDistribution := 100;
       contractVerified := false; honeypotDetected := false; hasRenounced := true |}
  = red.
Proof. apply calculateTrustLevel_veto. right. reflexivity. Defined.

(** C3. Thresholds are inclusive.  For a verified contract without a
    honeypot: values exactly at the green thresholds (score 80, risk 20,
    age 30, volume 100000) are green; so is anything at or beyond them;
    values exactly at the yellow thresholds (50, 50, 7, 10000) are
    yellow; and anything at or beyond the yellow thresholds is not red. *)
Theorem thresholds_inclusive (m : ContractMetadata) (i : SafetyIndicators) :
  contractVerified i = true → honeypotDetected i = false →
  (safetyScore m == 80 → rugPullRisk i == 20 →
   contractAge m == 30 → transactionVolume m == 100000 →
   calculateTrustLevel m i = green)
  ∧ (minSafetyScore (th_green TRUST_LEVEL_THRESHOLDS) <= safetyScore m →
     rugPullRisk i <= maxRugPullRisk (th_green TRUST_LEVEL_THRESHOLDS) →
     minContractAge (th_green TRUST_LEVEL_THRESHOLDS) <= contractAge m →
     minTransactionVolume (th_green TRUST_LEVEL_THRESHOLDS) <= transactionVolume m →
     calculateTrustLevel m i = green)
  ∧ (safetyScore m == 50 → rugPullRisk i == 50 →
     contractAge m == 7 → transactionVolume m == 10000 →
     calculateTrustLevel m i = yellow)
  ∧ (minSafetyScore (th_yellow TRUST_LEVEL_THRESHOLDS) <= safetyScore m →
     rugPullRisk i <= maxRugPullRisk (th_yellow TRUST_LEVEL_THRESHOLDS) →
     minContractAge (th_yellow TRUST_LEVEL_THRESHOLDS) <= contractAge m →
     minTransactionVolume (th_yellow TRUST_LEVEL_THRESHOLDS) <= transactionVolume m →
     calculateTrustLevel m i ≠ red).
Proof.
  intros Hv Hh. repeat split.
  - intros Hs Hr Ha Ht. apply calculateTrustLevel_green; try done; lra.
  - simpl. by apply calculateTrustLevel_green.
  - intros Hs Hr Ha Ht.
    assert (calculateTrustLevel m i ≠ red)
      by (apply calculateTrustLevel_at_least_yellow; try done; lra).
    assert (calculateTrustLevel m i ≠ green)
      by (apply calculateTrustLevel_not_green; left; lra).
    by destruct (calculateTrustLevel m i).
  - simpl. by apply calculateTrustLevel_at_least_yellow.
Qed.

(** Every value exactly at its green threshold: green. *)
Lemma thresholds_inclusive_witness :
  calculateTrustLevel at_green_boundary risk_20 = green.
Proof.
  destruct (thresholds_inclusive at_green_boundary risk_20) as (H & _);
    [reflexivity | reflexivity |].
  apply H; reflexivity.
Defined.

Example yellow_boundary :
  calculateTrustLevel at_yellow_boundary
    {| rugPullRisk := 50; liquidityScore := 75; holderDistribution := 70;
       contractVerified := true; honeypotDetected := false; hasRenounced := false |}
  = yellow.
Proof. reflexivity. Qed.

(** One below a green minimum is no longer green. *)
Example below_green_boundary :
  calculateTrustLevel
    {| name := "Contract"; address := "a"; deployer := "Unknown";
       contractAge := 29; transactionVolume := 100000; safetyScore := 80 |}
    risk_20
  = yellow.
Proof. reflexivity. Qed.

(** ** The advisory signals *)

Lemma signal_tag_inj s s' : signal_tag s = signal_tag s' → s = s'.
Proof. destruct s, s'; simpl; intros H; first [done | discriminate H]. Qed.

Lemma elem_of_spec_signals i tier s :
  signal_tag s ∈ spec_signals i tier ↔ signal_due i tier s = true.
Proof.
  unfold spec_signals. rewrite list_elem_of_fmap. split.
  - intros (s' & Heq & Hin). apply signal_tag_inj in Heq as <-.
    apply list_elem_of_In, filter_In in Hin. tauto.
  - intros H. exists s. split; [done |].
    apply list_elem_of_In, filter_In. split; [| done].
    destruct s; simpl; tauto.
Qed.

Lemma generateMiterSignals_spec_signals i tier :
  generateMiterSignals i tier = spec_signals i tier.
Proof.
  unfold generateMiterSignals, spec_signals, push_if. simpl.
  destruct (bool_decide (tier = red)), (honeypotDetected i), (contractVerified i),
    (Num.gt (rugPullRisk i) 70), (Num.gt (rugPullRisk i) 40),
    (Num.lt (liquidityScore i) 30), (Num.lt (holderDistribution i) 30),
    (hasRenounced i); reflexivity.
Qed.

Lemma spec_signals_length i tier : (length (spec_signals i tier) ≤ 7)%nat.
Proof.
  unfold spec_signals. rewrite length_fmap. simpl.
  destruct (bool_decide (tier = red)), (honeypotDetected i), (contractVerified i),
    (Num.gt (rugPullRisk i) 70), (Num.gt (rugPullRisk i) 40),
    (Num.lt (liquidityScore i) 30), (Num.lt (holderDistribution i) 30),
    (hasRenounced i); simpl; lia.
Qed.

(** C8, as amended.  [generateMiterSignals] returns the tags that are due,
    in the fixed order HIGH_RISK, HONEYPOT_DETECTED, UNVERIFIED_CONTRACT,
    CRITICAL_RUG_RISK, ELEVATED_RUG_RISK, LOW_LIQUIDITY,
    CONCENTRATED_HOLDERS, OWNERSHIP_NOT_RENOUNCED: HIGH_RISK iff the tier is
    red (and then first), CRITICAL iff risk > 70, ELEVATED iff
    40 < risk <= 70 (so never both), LOW_LIQUIDITY iff liquidity < 30,
    CONCENTRATED_HOLDERS iff holders < 30, and the flags as named.  The
    tags are distinct and there are at most 7 of them. *)
Theorem generateMiterSignals_spec (i : SafetyIndicators) (tier : TrustLevel) :
  let signals := generateMiterSignals i tier in
  signals = signal_tag <$> List.filter (signal_due i tier) signal_order
  ∧ sublist signals (signal_tag <$> signal_order)
  ∧ ("HIGH_RISK" ∈ signals ↔ tier = red)
  ∧ (tier = red ↔ head signals = Some "HIGH_RISK")
  ∧ ("HONEYPOT_DETECTED" ∈ signals ↔ honeypotDetected i = true)
  ∧ ("UNVERIFIED_CONTRACT" ∈ signals ↔ contractVerified i = false)
  ∧ ("CRITICAL_RUG_RISK" ∈ signals ↔ 70 < rugPullRisk i)
  ∧ ("ELEVATED_RUG_RISK" ∈ signals ↔ 40 < rugPullRisk i ∧ rugPullRisk i <= 70)
  ∧ ("LOW_LIQUIDITY" ∈ signals ↔ liquidityScore i < 30)
  ∧ ("CONCENTRATED_HOLDERS" ∈ signals ↔ holderDistribution i < 30)
  ∧ ("OWNERSHIP_NOT_RENOUNCED" ∈ signals ↔ hasRenounced i = false)
  ∧ NoDup signals
  ∧ (length signals ≤ 7)%nat.
Proof.
  intros signals. subst signals. rewrite generateMiterSignals_spec_signals.
  split; [done |]. split.
  { unfold spec_signals. apply fmap_sublist.
    induction signal_order as [| s l IH]; simpl; [constructor |].
    destruct (signal_due i tier s); by constructor. }
  split.
  { rewrite (elem_of_spec_signals i tier HIGH_RISK). simpl.
    by rewrite bool_decide_eq_true. }
  split.
  { unfold spec_signals. simpl.
    destruct tier; simpl; [tauto | |];
      (split; [done |]); repeat case_match; simpl; discriminate. }
  split.
  { by rewrite (elem_of_spec_signals i tier HONEYPOT_DETECTED). }
  split.
  { rewrite (elem_of_spec_signals i tier UNVERIFIED_CONTRACT). simpl.
    apply negb_true_iff. }
  split.
  { rewrite (elem_of_spec_signals i tier CRITICAL_RUG_RISK). simpl.
    apply NumFacts.gt_spec. }
  split.
  { rewrite (elem_of_spec_signals i tier ELEVATED_RUG_RISK). simpl.
    rewrite andb_true_iff, negb_true_iff, NumFacts.gt_false, NumFacts.gt_spec.
    tauto. }
  split.
  { rewrite (elem_of_spec_signals i tier LOW_LIQUIDITY). simpl.
    apply NumFacts.lt_spec. }
  split.
  { rewrite (elem_of_spec_signals i tier CONCENTRATED_HOLDERS). simpl.
    apply NumFacts.lt_spec. }
  split.
  { rewrite (elem_of_spec_signals i tier OWNERSHIP_NOT_RENOUNCED). simpl.
    apply negb_true_iff. }
  split.
  { unfold spec_signals. apply NoDup_fmap_2; [intros ??; apply signal_tag_inj |].
    apply NoDup_ListNoDup, List.NoDup_filter, NoDup_ListNoDup.
    by apply (bool_decide_unpack _). }
  apply spec_signals_length.
Qed.

(** C8, as stated, fails: with every risk factor present the sequence has
    seven distinct tags, not at most six. *)
Lemma generateMiterSignals_seven_tags :
  generateMiterSignals all_flags (calculateTrustLevel at_green_boundary all_flags)
  = ["HIGH_RISK"; "HONEYPOT_DETECTED"; "UNVERIFIED_CONTRACT"; "CRITICAL_RUG_RISK";
     "LOW_LIQUIDITY"; "CONCENTRATED_HOLDERS"; "OWNERSHIP_NOT_RENOUNCED"]
  ∧ NoDup (generateMiterSignals all_flags (calculateTrustLevel at_green_boundary all_flags))
  ∧ ¬ (length (generateMiterSignals all_flags
                 (calculateTrustLevel at_green_boundary all_flags)) ≤ 6)%nat.
Proof.
  split; [reflexivity |]. split.
  - by apply (bool_decide_unpack _).
  - vm_compute. lia.
Qed.

Example generateMiterSignals_scenario :
  generateMiterSignals scenario red = ["HIGH_RISK"; "OWNERSHIP_NOT_RENOUNCED"].
Proof. reflexivity. Qed.

Example generateMiterSignals_empty :
  generateMiterSignals
    {| rugPullRisk := 10; liquidityScore := 90; holderDistribution := 90;
       contractVerified := true; honeypotDetected := false; hasRenounced := true |}
    green
  = [].
Proof. reflexivity. Qed.

(** ** The checker: cache and monitored set *)

Section ServiceFacts.
Context {R : Runtime}.
Implicit Types (this : RugPullChecker) (w : World) (a : string).
Implicit Types (r cached : RugPullCheckResult).

Lemma isCacheValid_spec w ts :
  isCacheValid w ts = true ↔ (Date_now w - ts < rugPullCheck)%Z.
Proof. unfold isCacheValid. apply Z.ltb_lt. Qed.

Lemma cache_probe_Some this w a cached :
  cache_probe this w a = Some cached
  ↔ checkCache this !! a = Some cached
    ∧ (Date_now w - timestamp cached < rugPullCheck)%Z.
Proof.
  unfold cache_probe.
  destruct (checkCache this !! a) as [c |].
  - destruct (isCacheValid w (timestamp c)) eqn:E.
    + split.
      * intros [= <-]. split; [done | by apply isCacheValid_spec].
      * by intros [[= <-] _].
    + split; [done |]. intros [[= <-] H].
      apply isCacheValid_spec in H. congruence.
  - split; [done |]. by intros [? _].
Qed.

Lemma cache_probe_None this w a :
  cache_probe this w a = None
  ↔ ∀ cached, checkCache this !! a = Some cached →
              (rugPullCheck ≤ Date_now w - timestamp cached)%Z.
Proof.
  unfold cache_probe, isCacheValid.
  destruct (checkCache this !! a) as [c |]; [| done].
  destruct (Z.ltb_spec (Date_now w - timestamp c) rugPullCheck).
  - split; [done |]. intros H'. specialize (H' c eq_refl). lia.
  - split; [| done]. by intros _ ? [= <-].
Qed.

Lemma checkContract_hit this w a cached :
  checkCache this !! a = Some cached →
  (Date_now w - timestamp cached < rugPullCheck)%Z →
  checkContract a (this, w) = (inr cached, (this, w)).
Proof.
  intros Hc Ht. unfold checkContract.
  by rewrite (proj2 (cache_probe_Some this w a cached)).
Qed.

Lemma checkContract_stale this w a cached :
  checkCache this !! a = Some cached →
  (rugPullCheck ≤ Date_now w - timestamp cached)%Z →
  checkContract a (this, w) = fresh_check a (this, w).
Proof.
  intros Hc Ht. unfold checkContract.
  rewrite (proj2 (cache_probe_None this w a)); [done |].
  by intros c; rewrite Hc; intros [= <-].
Qed.

Lemma checkContract_absent this w a :
  checkCache this !! a = None →
  checkContract a (this, w) = fresh_check a (this, w).
Proof.
  intros Hc. unfold checkContract.
  rewrite (proj2 (cache_probe_None this w a)); [done |].
  by intros c; rewrite Hc.
Qed.

(** A fresh check consults the provider; on an answer it stamps the
    result with the clock as it is then and writes it to the cache, on a
    rejection it leaves the checker as it was. *)
Lemma fresh_check_spec this w a :
  fresh_check a (this, w)
  = match analyzeContract a w with
    | (inl e, w1) => (inl e, (this, w1))
    | (inr i, w1) =>
        (inr (build_result a i (Date_now w1)),
         ({| checkCache := <[a := build_result a i (Date_now w1)]> (checkCache this);
             monitoredContracts := monitoredContracts this |}, w1))
    end.
Proof. unfold fresh_check. by destruct (analyzeContract a w) as [[e | i] w1]. Qed.

Lemma fresh_check_cached this w a r this1 w1 :
  fresh_check a (this, w) = (inr r, (this1, w1)) →
  checkCache this1 !! a = Some r ∧ monitoredContracts this1 = monitoredContracts this.
Proof.
  rewrite fresh_check_spec. destruct (analyzeContract a w) as [[e | i] w']; [done |].
  intros [= <- <- <-]. simpl. by rewrite lookup_insert_eq.
Qed.

Lemma checkContract_cached this w a r this1 w1 :
  checkContract a (this, w) = (inr r, (this1, w1)) →
  checkCache this1 !! a = Some r.
Proof.
  unfold checkContract. destruct (cache_probe this w a) as [c |] eqn:E.
  - intros [= <- <- <-]. by apply cache_probe_Some in E as [? _].
  - intros H. by apply fresh_check_cached in H as [? _].
Qed.

(** C4. A cached result is served iff its age is strictly below the
    interval of 300000 ms; at an age of exactly the interval it is stale
    and the contract is checked afresh. *)
Theorem cache_freshness_strict this w a cached :
  checkCache this !! a = Some cached →
  rugPullCheck = 300000%Z
  ∧ (isCacheValid w (timestamp cached) = true
     ↔ (Date_now w - timestamp cached < rugPullCheck)%Z)
  ∧ ((Date_now w - timestamp cached < rugPullCheck)%Z →
     checkContract a (this, w) = (inr cached, (this, w)))
  ∧ ((Date_now w - timestamp cached = rugPullCheck)%Z →
     isCacheValid w (timestamp cached) = false
     ∧ checkContract a (this, w) = fresh_check a (this, w))
  ∧ ((Date_now w - timestamp cached > rugPullCheck)%Z →
     checkContract a (this, w) = fresh_check a (this, w)).
Proof.
  intros Hc. split; [done |]. split; [apply isCacheValid_spec |]. split; [| split].
  - by apply checkContract_hit.
  - intros Ht. split.
    + apply not_true_iff_false. rewrite isCacheValid_spec. lia.
    + apply (checkContract_stale _ _ _ cached); [done | lia].
  - intros Ht. apply (checkContract_stale _ _ _ cached); [done | lia].
Qed.

(** C5. Once [checkContract] has returned a result, a second call for
    the same address while that result is fresh returns the very same
    result, timestamp included, and changes neither the cache nor the
    world: nothing is recomputed and nothing is written. *)
Theorem checkContract_idempotent this w a r this1 w1 w2 :
  checkContract a (this, w) = (inr r, (this1, w1)) →
  (Date_now w2 - timestamp r < rugPullCheck)%Z →
  checkContract a (this1, w2) = (inr r, (this1, w2)).
Proof.
  intros H1 Ht. apply checkContract_hit; [| done].
  by apply checkContract_cached in H1.
Qed.

Lemma stopMonitoring_cache a b this :
  checkCache (stopMonitoring a this) !! b
  = if decide (a = b) then None else checkCache this !! b.
Proof. unfold stopMonitoring. simpl. apply lookup_delete. Qed.

(** C6. [stopMonitoring] takes the address out of the monitored set and
    out of the cache, and leaves the other addresses alone; the next
    [checkContract] for it is a fresh check, whose outcome is the
    provider's answer stamped with the clock of that call and does not
    depend on what the checker held before the stop. *)
Theorem stopMonitoring_evicts this a :
  (a ∉ monitoredContracts (stopMonitoring a this))
  ∧ checkCache (stopMonitoring a this) !! a = None
  ∧ (∀ b, b ≠ a →
       checkCache (stopMonitoring a this) !! b = checkCache this !! b
       ∧ (b ∈ monitoredContracts (stopMonitoring a this)
          ↔ b ∈ monitoredContracts this))
  ∧ (∀ w, checkContract a (stopMonitoring a this, w)
          = fresh_check a (stopMonitoring a this, w))
  ∧ (∀ w, (checkContract a (stopMonitoring a this, w)).1
          = match analyzeContract a w with
            | (inl e, _) => inl e
            | (inr i, w1) => inr (build_result a i (Date_now w1))
            end)
  ∧ (∀ this' w, (checkContract a (stopMonitoring a this, w)).1
                = (checkContract a (stopMonitoring a this', w)).1).
Proof.
  assert (∀ this0 w, (checkContract a (stopMonitoring a this0, w)).1
          = match analyzeContract a w with
            | (inl e, _) => inl e
            | (inr i, w1) => inr (build_result a i (Date_now w1))
            end) as Hout.
  { intros this0 w. rewrite checkContract_absent.
    - rewrite fresh_check_spec. by destruct (analyzeContract a w) as [[e | i] w1].
    - rewrite stopMonitoring_cache. by case_decide. }
  split; [| split; [| split; [| split; [| split]]]].
  - unfold stopMonitoring. simpl. rewrite list_elem_of_filter. tauto.
  - rewrite stopMonitoring_cache. by case_decide.
  - intros b Hb. split.
    + rewrite stopMonitoring_cache. by case_decide.
    + unfold stopMonitoring. simpl. rewrite list_elem_of_filter. tauto.
  - intros w. apply checkContract_absent. rewrite stopMonitoring_cache. by case_decide.
  - apply Hout.
  - intros this' w. by rewrite !Hout.
Qed.

(** *** Batches *)

Lemma resume_length calls s : length (resume calls s).1 = length calls.
Proof.
  revert s. induction calls as [| [a [c |]] calls IH]; intros s; simpl; [done | |].
  - specialize (IH s). destruct (resume calls s) as [rs s']. simpl in *. by rewrite IH.
  - destruct (fresh_check a s) as [o s1]. specialize (IH s1).
    destruct (resume calls s1) as [rs s2]. simpl in *. by rewrite IH.
Qed.

(** Every call of the batch is settled, and by its own evaluation: a
    call that found a fresh entry is fulfilled with it, any other is
    settled as its own fresh check came out. *)
Lemma resume_lookup calls s k a p :
  calls !! k = Some (a, p) →
  ∃ x, (resume calls s).1 !! k = Some x
       ∧ match p with
         | Some cached => x = fulfilled cached
         | None => ∃ sk, x = settled (fresh_check a sk).1
         end.
Proof.
  revert s k. induction calls as [| [b [c |]] calls IH]; intros s k; simpl; [done | |].
  - destruct k as [| k]; simpl.
    + intros [= <- <-]. destruct (resume calls s) as [rs s']. by eexists.
    + intros Hk. destruct (IH s k Hk) as (x & Hx & Hp).
      destruct (resume calls s) as [rs s']. by exists x.
  - destruct (fresh_check b s) as [o s1] eqn:E. destruct k as [| k]; simpl.
    + intros [= <- <-]. destruct (resume calls s1) as [rs s2]. simpl.
      eexists. split; [done |]. exists s. by rewrite E.
    + intros Hk. destruct (IH s1 k Hk) as (x & Hx & Hp).
      destruct (resume calls s1) as [rs s2]. by exists x.
Qed.

Lemma allSettled_checkContract_lookup addresses s k a :
  addresses !! k = Some a →
  ∃ x, (allSettled_checkContract addresses s).1 !! k = Some x
       ∧ match cache_probe s.1 s.2 a with
         | Some cached => x = fulfilled cached
         | None => ∃ sk, x = settled (fresh_check a sk).1
         end.
Proof.
  intros Hk. unfold allSettled_checkContract.
  apply resume_lookup. by rewrite list_lookup_fmap, Hk.
Qed.

Lemma collect_rankings_lookup addresses results a tier :
  collect_rankings addresses results !! a = Some tier →
  ∃ k value, addresses !! k = Some a
             ∧ results !! k = Some (fulfilled value)
             ∧ riskLevel value = tier.
Proof.
  unfold collect_rankings.
  assert (∀ m : gmap string TrustLevel,
    foldl (λ rankings '(a, result),
             match result with
             | fulfilled value => <[a := riskLevel value]> rankings
             | rejected _ => rankings
             end) m (zip addresses results) !! a = Some tier →
    m !! a = Some tier
    ∨ ∃ k value, addresses !! k = Some a
                 ∧ results !! k = Some (fulfilled value)
                 ∧ riskLevel value = tier) as H.
  { revert results. induction addresses as [| b l IH]; intros results m; simpl; [by left |].
    destruct results as [| x results]; simpl; [by left |].
    intros Hf. apply IH in Hf as [Hm | (k & v & Hk & Hr & Ht)].
    - destruct x as [v | e]; [| by left].
      destruct (decide (b = a)) as [-> | Hne].
      + rewrite lookup_insert_eq in Hm. injection Hm as <-.
        right. by exists 0%nat, v.
      + rewrite lookup_insert_ne in Hm by done. by left.
    - right. by exists (S k), v. }
  intros Hf. apply H in Hf as [Hm | Hf]; [by rewrite lookup_empty in Hm | done].
Qed.

Lemma collect_rankings_is_Some addresses results a k value :
  addresses !! k = Some a →
  results !! k = Some (fulfilled value) →
  is_Some (collect_rankings addresses results !! a).
Proof.
  unfold collect_rankings.
  assert (∀ (l : list (string * PromiseSettledResult RugPullCheckResult))
            (m : gmap string TrustLevel),
    is_Some (m !! a) →
    is_Some (foldl (λ rankings '(a, result),
             match result with
             | fulfilled value => <[a := riskLevel value]> rankings
             | rejected _ => rankings
             end) m l !! a)) as Hkeep.
  { induction l as [| [b x] l IH]; intros m Hm; simpl; [done |].
    apply IH. destruct x as [v | e]; [| done].
    rewrite lookup_insert. case_decide; [by eexists | done]. }
  generalize (∅ : gmap string TrustLevel).
  revert results k. induction addresses as [| b l IH]; intros results k m; [done |].
  destruct results as [| x results]; [by destruct k |].
  destruct k as [| k]; simpl.
  - intros [= ->] [= ->]. apply Hkeep. rewrite lookup_insert_eq. by eexists.
  - apply IH.
Qed.

(** C7. In a batch every address is settled on its own: there are as
    many settled results as addresses, each either the fresh cache entry
    found on entry or the outcome of that address's own fresh check; the
    ranking holds an address iff one of its evaluations was fulfilled,
    and then with the tier of such an evaluation (nothing is put in for a
    rejected one); [getTrustRankings] and [syncLiveMetadata] never
    reject. *)
Theorem batch_isolation (addresses : list string) (s : RugPullChecker * World) :
  let results := (allSettled_checkContract addresses s).1 in
  length results = length addresses
  ∧ (∀ k a, addresses !! k = Some a →
       ∃ x, results !! k = Some x
            ∧ match cache_probe s.1 s.2 a with
              | Some cached => x = fulfilled cached
              | None => ∃ sk, x = settled (fresh_check a sk).1
              end)
  ∧ (∃ rankings,
       (getTrustRankings addresses s).1 = inr rankings
       ∧ (∀ a, is_Some (rankings !! a)
               ↔ ∃ k value, addresses !! k = Some a
                            ∧ results !! k = Some (fulfilled value))
       ∧ (∀ a tier, rankings !! a = Some tier →
            ∃ k value, addresses !! k = Some a
                       ∧ results !! k = Some (fulfilled value)
                       ∧ riskLevel value = tier))
  ∧ (syncLiveMetadata s).1 = inr ()
  ∧ (syncLiveMetadata s).2 = (allSettled_checkContract (monitoredContracts s.1) s).2.
Proof.
  intros results. subst results.
  split; [| split; [| split; [| split]]].
  - unfold allSettled_checkContract. by rewrite resume_length, length_map.
  - intros k a. apply allSettled_checkContract_lookup.
  - unfold getTrustRankings.
    destruct (allSettled_checkContract addresses s) as [results s']. simpl.
    eexists. split; [done |]. split.
    + intros a. split.
      * intros [tier Ht]. apply collect_rankings_lookup in Ht as (k & v & ? & ? & _).
        by exists k, v.
      * intros (k & v & Hk & Hr). by apply (collect_rankings_is_Some _ _ _ k v).
    + apply collect_rankings_lookup.
  - unfold syncLiveMetadata.
    by destruct (allSettled_checkContract (monitoredContracts s.1) s).
  - unfold syncLiveMetadata.
    by destruct (allSettled_checkContract (monitoredContracts s.1) s).
Qed.

(** *** What the cache holds *)

Lemma cache_wf_new : cache_wf new_RugPullChecker.
Proof. unfold cache_wf, new_RugPullChecker. simpl. apply map_Forall_empty. Qed.

Lemma build_result_wf a i ts :
  build_result a i ts
  = build_result a (indicators (build_result a i ts)) (timestamp (build_result a i ts)).
Proof. done. Qed.

Lemma fresh_check_wf this w a :
  cache_wf this → cache_wf (fresh_check a (this, w)).2.1.
Proof.
  intros Hwf. rewrite fresh_check_spec.
  destruct (analyzeContract a w) as [[e | i] w1]; simpl; [done |].
  unfold cache_wf. simpl. apply map_Forall_insert_2; [| done]. apply build_result_wf.
Qed.

Lemma checkContract_wf this w a :
  cache_wf this → cache_wf (checkContract a (this, w)).2.1.
Proof.
  intros Hwf. unfold checkContract.
  destruct (cache_probe this w a); [done |]. by apply fresh_check_wf.
Qed.

Lemma resume_wf calls s : cache_wf s.1 → cache_wf (resume calls s).2.1.
Proof.
  revert s. induction calls as [| [a [c |]] calls IH]; intros s Hwf; simpl; [done | |].
  - specialize (IH s Hwf). by destruct (resume calls s) as [rs s'].
  - destruct s as [this w].
    pose proof (fresh_check_wf this w a Hwf) as H1.
    destruct (fresh_check a (this, w)) as [o s1]. specialize (IH s1 H1).
    by destruct (resume calls s1) as [rs s2].
Qed.

Lemma stopMonitoring_wf this a : cache_wf this → cache_wf (stopMonitoring a this).
Proof.
  unfold cache_wf, stopMonitoring. simpl. intros Hwf.
  by apply map_Forall_delete.
Qed.

Lemma startMonitoring_wf this w a :
  cache_wf this → cache_wf (startMonitoring a (this, w)).2.1.
Proof.
  intros Hwf. unfold startMonitoring. case_bool_decide; [done |].
  match goal with |- context [checkContract a (?t, w)] =>
    pose proof (checkContract_wf t w a Hwf) as H1;
    destruct (checkContract a (t, w)) as [[e | r] s1] end; done.
Qed.

Lemma syncLiveMetadata_wf this w :
  cache_wf this → cache_wf (syncLiveMetadata (this, w)).2.1.
Proof.
  intros Hwf. unfold syncLiveMetadata, allSettled_checkContract.
  match goal with |- context [resume ?c ?s] =>
    pose proof (resume_wf c s Hwf) as H1; destruct (resume c s) end; done.
Qed.

Lemma getTrustRankings_wf this w l :
  cache_wf this → cache_wf (getTrustRankings l (this, w)).2.1.
Proof.
  intros Hwf. unfold getTrustRankings, allSettled_checkContract.
  match goal with |- context [resume ?c ?s] =>
    pose proof (resume_wf c s Hwf) as H1; destruct (resume c s) end; done.
Qed.

Lemma flagUnsafeInteractions_state a s :
  (flagUnsafeInteractions a s).2 = (checkContract a s).2.
Proof.
  unfold flagUnsafeInteractions.
  destruct (checkContract a s) as [[e | r] s']; [done |].
  by repeat case_match.
Qed.

(** Every state the public methods can produce has a well-formed cache. *)
Lemma reachable_cache_wf this : reachable this → cache_wf this.
Proof.
  induction 1.
  - apply cache_wf_new.
  - by apply checkContract_wf.
  - by apply startMonitoring_wf.
  - by apply stopMonitoring_wf.
  - by apply syncLiveMetadata_wf.
  - rewrite flagUnsafeInteractions_state. by apply checkContract_wf.
  - by apply getTrustRankings_wf.
Qed.

(** What [checkContract] returns was built by [checkContract]. *)
Lemma checkContract_built this w a r s' :
  cache_wf this →
  checkContract a (this, w) = (inr r, s') →
  r = build_result a (indicators r) (timestamp r).
Proof.
  intros Hwf. unfold checkContract.
  destruct (cache_probe this w a) as [c |] eqn:E.
  - intros [= <- <-]. apply cache_probe_Some in E as [E _]. by apply Hwf in E.
  - rewrite fresh_check_spec. destruct (analyzeContract a w) as [[e | i] w1]; [done |].
    by intros [= <- <-].
Qed.

(** *** Flagging *)




(** *** Every evaluation is red *)

(** A contract younger than the yellow minimum age, or with less than
    the yellow minimum volume, cannot be green or yellow. *)
Lemma calculateTrustLevel_below_yellow m i :
  contractAge m < minContractAge (th_yellow TRUST_LEVEL_THRESHOLDS)
  ∨ transactionVolume m < minTransactionVolume (th_yellow TRUST_LEVEL_THRESHOLDS) →
  calculateTrustLevel m i = red.
Proof.
  simpl. intros H. unfold calculateTrustLevel.
  repeat case_match; try done;
    simpl in *; repeat match goal with
    | H : _ && _ = true |- _ => apply andb_true_iff in H as [? ?]
    | H : Num.ge _ _ = true |- _ => apply NumFacts.ge_spec in H
    | H : Num.le _ _ = true |- _ => apply NumFacts.le_spec in H
    end; lra.
Qed.

Lemma build_result_red a i ts :
  riskLevel (build_result a i ts) = red ∧ isUnsafe (build_result a i ts) = true.
Proof.
  assert (riskLevel (build_result a i ts) = red) as H.
  { unfold build_result. simpl. apply calculateTrustLevel_below_yellow. left. done. }
  split; [done |]. unfold build_result in *. simpl in *. by rewrite H.
Qed.

(** C10. With the thresholds as configured, whatever [checkContract]
    returns is red and unsafe, for every address and every answer of the
    provider: the metadata it classifies has age 0 and volume 0, below
    the yellow minimums 7 and 10000. *)
Theorem checkContract_always_red this w a r s' :
  cache_wf this →
  checkContract a (this, w) = (inr r, s') →
  riskLevel r = red ∧ isUnsafe r = true
  ∧ head (miterSignals r) = Some "HIGH_RISK".
Proof.
  intros Hwf Hc. rewrite (checkContract_built _ _ _ _ _ Hwf Hc).
  destruct (build_result_red a (indicators r) (timestamp r)) as [H1 H2].
  split; [done |]. split; [done |].
  unfold build_result in *. simpl in *. rewrite H1.
  unfold generateMiterSignals, push_if. simpl.
  by repeat case_match.
Qed.

(** With the thresholds as configured the first test of
    [flagUnsafeInteractions] always fires: the reason is the red tier with
    the joined signals, and the honeypot and critical-risk messages of the
    two later tests are never returned. *)
Lemma flagUnsafeInteractions_reason this w a r s' :
  cache_wf this →
  checkContract a (this, w) = (inr r, s') →
  flagUnsafeInteractions a (this, w)
  = (inr {| shouldBlock := true;
            reason := "Contract flagged as red: "
                      +:+ String.concat ", " (miterSignals r) |}, s').
Proof.
  intros Hwf Hc. unfold flagUnsafeInteractions. rewrite Hc.
  pose proof (checkContract_built _ _ _ _ _ Hwf Hc) as Hr.
  destruct (build_result_red a (indicators r) (timestamp r)) as [H1 H2].
  rewrite <- Hr in H1, H2. by rewrite H2, H1.
Qed.

End ServiceFacts.

(** ** Concrete runs *)

Lemma cache_freshness_strict_witness :
  isCacheValid (R := placeholder_runtime) 301000%Z 1000%Z = false
  ∧ checkContract (R := placeholder_runtime) "a" (checked_at_1000, 301000%Z)
    = fresh_check (R := placeholder_runtime) "a" (checked_at_1000, 301000%Z).
Proof.
  destruct (cache_freshness_strict (R := placeholder_runtime)
              checked_at_1000 301000%Z "a"
              (build_result "a" (placeholder_analyzeContract "a") 1000))
    as (_ & _ & _ & H & _); [reflexivity |].
  apply H. reflexivity.
Defined.

(** One millisecond before the interval is over the entry is served; at
    the interval the contract is checked again and restamped. *)
Example served_at_300999 :
  (checkContract (R := placeholder_runtime) "a" (checked_at_1000, 300999%Z)).1
  = inr (build_result "a" (placeholder_analyzeContract "a") 1000).
Proof. reflexivity. Qed.

Example rechecked_at_301000 :
  (checkContract (R := placeholder_runtime) "a" (checked_at_1000, 301000%Z)).1
  = inr (build_result "a" (placeholder_analyzeContract "a") 301000).
Proof. reflexivity. Qed.

Lemma checkContract_idempotent_witness :
  checkContract (R := placeholder_runtime) "a" (checked_at_1000, 2000%Z)
  = (inr (build_result "a" (placeholder_analyzeContract "a") 1000),
     (checked_at_1000, 2000%Z)).
Proof.
  apply (checkContract_idempotent (R := placeholder_runtime)
           new_RugPullChecker 1000%Z "a" _ checked_at_1000 1000%Z 2000%Z).
  - reflexivity.
  - vm_compute. reflexivity.
Defined.

Lemma stopMonitoring_evicts_witness :
  checkCache (stopMonitoring "a" checked_at_1000) !! "b"
  = checkCache checked_at_1000 !! "b".
Proof.
  destruct (stopMonitoring_evicts (R := placeholder_runtime) checked_at_1000 "a")
    as (_ & _ & H & _).
  apply (H "b"). discriminate.
Defined.

(** Before the stop the cached result of clock 1000 is served at clock
    2000; right after the stop a result stamped 2000 is returned. *)
Example stop_then_check :
  (checkContract (R := placeholder_runtime) "a" (checked_at_1000, 2000%Z)).1
  = inr (build_result "a" (placeholder_analyzeContract "a") 1000)
  ∧ (checkContract (R := placeholder_runtime) "a"
       (stopMonitoring "a" checked_at_1000, 2000%Z)).1
    = inr (build_result "a" (placeholder_analyzeContract "a") 2000).
Proof. split; reflexivity. Qed.

Lemma batch_isolation_witness :
  ∃ x, (allSettled_checkContract (R := failing_runtime "b") ["a"; "b"; "c"]
          (new_RugPullChecker, 1000%Z)).1 !! 1%nat = Some x
       ∧ ∃ sk, x = settled (fresh_check (R := failing_runtime "b") "b" sk).1.
Proof.
  destruct (batch_isolation (R := failing_runtime "b") ["a"; "b"; "c"]
              (new_RugPullChecker, 1000%Z)) as (_ & H & _).
  apply (H 1%nat "b"). reflexivity.
Defined.

(** Three addresses, the provider rejecting for the second: the settled
    results keep the rejection in its place, the ranking has exactly the
    two other addresses. *)
Example rank_three_one_fails :
  (allSettled_checkContract (R := failing_runtime "b") ["a"; "b"; "c"]
     (new_RugPullChecker, 1000%Z)).1
  = [fulfilled (build_result "a" (placeholder_analyzeContract "a") 1000);
     rejected "provider error";
     fulfilled (build_result "c" (placeholder_analyzeContract "c") 1000)]
  ∧ ∃ rankings,
      (getTrustRankings (R := failing_runtime "b") ["a"; "b"; "c"]
         (new_RugPullChecker, 1000%Z)).1 = inr rankings
      ∧ size rankings = 2%nat
      ∧ rankings !! "a" = Some red
      ∧ rankings !! "b" = None
      ∧ rankings !! "c" = Some red.
Proof. split; [reflexivity |]. eexists. repeat split; reflexivity. Qed.

(** The same three addresses under monitoring: the sync returns normally
    and afterwards the two good addresses are cached, the rejected one is
    not. *)
Example sync_three_one_fails :
  getMonitoredContracts monitoring_abc = ["a"; "b"; "c"]
  ∧ (syncLiveMetadata (R := failing_runtime "b") (monitoring_abc, 400000%Z)).1 = inr ()
  ∧ let after := (syncLiveMetadata (R := failing_runtime "b")
                    (monitoring_abc, 400000%Z)).2.1 in
    checkCache after !! "a"
    = Some (build_result "a" (placeholder_analyzeContract "a") 400000)
    ∧ checkCache after !! "b" = None
    ∧ checkCache after !! "c"
      = Some (build_result "c" (placeholder_analyzeContract "c") 400000).
Proof. repeat split; reflexivity. Qed.

(** Two calls for one address in a batch both miss and both check afresh. *)
Example duplicates_both_miss :
  (allSettled_checkContract (R := placeholder_runtime) ["a"; "a"]
     (new_RugPullChecker, 1000%Z)).1
  = [fulfilled (build_result "a" (placeholder_analyzeContract "a") 1000);
     fulfilled (build_result "a" (placeholder_analyzeContract "a") 1000)].
Proof. reflexivity. Qed.

Lemma checked_at_1000_wf : cache_wf checked_at_1000.
Proof. apply (checkContract_wf (R := placeholder_runtime)), cache_wf_new. Qed.


(** A verified contract with risk 80 is red by the risk cap of 50; the
    reason names the tier and carries CRITICAL_RUG_RISK among the signals. *)
Example flag_risk_80 :
  (flagUnsafeInteractions
     (R := {| World := Z; Date_now := λ w, w;
              analyzeContract := λ a w,
                (inr {| rugPullRisk := 80; liquidityScore := 75;
                        holderDistribution := 70; contractVerified := true;
                        honeypotDetected := false; hasRenounced := true |}, w) |})
     "a" (new_RugPullChecker, 1000%Z)).1
  = inr {| shouldBlock := true;
           reason := "Contract flagged as red: HIGH_RISK, CRITICAL_RUG_RISK" |}.
Proof. reflexivity. Qed.

Example flag_placeholder :
  (flagUnsafeInteractions (R := placeholder_runtime) "a" (new_RugPullChecker, 1000%Z)).1
  = inr {| shouldBlock := true;
           reason := "Contract flagged as red: HIGH_RISK, OWNERSHIP_NOT_RENOUNCED" |}.
Proof. reflexivity. Qed.

Lemma checkContract_always_red_witness :
  riskLevel (build_result "a" (placeholder_analyzeContract "a") 1000) = red
  ∧ isUnsafe (build_result "a" (placeholder_analyzeContract "a") 1000) = true
  ∧ head (miterSignals (build_result "a" (placeholder_analyzeContract "a") 1000))
    = Some "HIGH_RISK".
Proof.
  apply (checkContract_always_red (R := placeholder_runtime)
           checked_at_1000 2000%Z "a" _ (checked_at_1000, 2000%Z)).
  - apply checked_at_1000_wf.
  - reflexivity.
Defined.

(** The worked scenario, end to end: score 76, red, signals HIGH_RISK and
    OWNERSHIP_NOT_RENOUNCED. *)
Example checkContract_scenario :
  (checkContract (R := placeholder_runtime) "a" (new_RugPullChecker, 1000%Z)).1
  = inr {| contractAddress := "a"; isUnsafe := true; riskLevel := red;
           indicators := scenario;
           miterSignals := ["HIGH_RISK"; "OWNERSHIP_NOT_RENOUNCED"];
           timestamp := 1000 |}.
Proof. reflexivity. Qed.

(** * The rest of the code: properties *)

(** ** More on the classifier and the score *)

Ltac num_props :=
  repeat match goal with
  | H : _ || _ = false |- _ => apply orb_false_iff in H as [? ?]
  | H : _ && _ = true |- _ => apply andb_true_iff in H as [? ?]
  | H : negb _ = false |- _ => apply negb_false_iff in H
  | H : negb _ = true |- _ => apply negb_true_iff in H
  | H : Num.ge _ _ = true |- _ => apply NumFacts.ge_spec in H
  | H : Num.le _ _ = true |- _ => apply NumFacts.le_spec in H
  | H : Num.gt _ _ = true |- _ => apply NumFacts.gt_spec in H
  | H : Num.lt _ _ = true |- _ => apply NumFacts.lt_spec in H
  | H : Num.gt _ _ = false |- _ => apply NumFacts.gt_false in H
  end.

Lemma calculateTrustLevel_green_inv m i :
  calculateTrustLevel m i = green →
  (contractVerified i = true ∧ honeypotDetected i = false)
  ∧ 80 <= safetyScore m ∧ rugPullRisk i <= 20
  ∧ 30 <= contractAge m ∧ 100000 <= transactionVolume m.
Proof.
  unfold calculateTrustLevel. simpl.
  repeat case_match; try done. intros _. num_props. done.
Qed.

Lemma calculateTrustLevel_yellow_inv m i :
  calculateTrustLevel m i = yellow →
  (contractVerified i = true ∧ honeypotDetected i = false)
  ∧ 50 <= safetyScore m ∧ rugPullRisk i <= 50
  ∧ 7 <= contractAge m ∧ 10000 <= transactionVolume m.
Proof.
  unfold calculateTrustLevel. simpl.
  repeat case_match; try done. intros _. num_props. done.
Qed.

(** The tier is green exactly when the contract is verified, no honeypot
    was detected and all four green thresholds are met; it is yellow
    exactly when it is verified, no honeypot was detected, all four yellow
    thresholds are met and some green threshold is missed; it is red
    exactly when it is unverified, a honeypot, or misses a yellow
    threshold. *)
Theorem calculateTrustLevel_tiers (m : ContractMetadata) (i : SafetyIndicators) :
  let ok := contractVerified i = true ∧ honeypotDetected i = false in
  let green_met := 80 <= safetyScore m ∧ rugPullRisk i <= 20
                   ∧ 30 <= contractAge m ∧ 100000 <= transactionVolume m in
  let yellow_met := 50 <= safetyScore m ∧ rugPullRisk i <= 50
                    ∧ 7 <= contractAge m ∧ 10000 <= transactionVolume m in
  (calculateTrustLevel m i = green ↔ ok ∧ green_met)
  ∧ (calculateTrustLevel m i = yellow ↔ ok ∧ yellow_met ∧ ¬ green_met)
  ∧ (calculateTrustLevel m i = red ↔ ¬ (ok ∧ yellow_met)).
Proof.
  intros ok green_met yellow_met. subst ok green_met yellow_met.
  assert (calculateTrustLevel m i = green ↔
          (contractVerified i = true ∧ honeypotDetected i = false)
          ∧ 80 <= safetyScore m ∧ rugPullRisk i <= 20
          ∧ 30 <= contractAge m ∧ 100000 <= transactionVolume m) as Hg.
  { split; [apply calculateTrustLevel_green_inv |].
    intros ([? ?] & ? & ? & ? & ?). by apply calculateTrustLevel_green. }
  split; [exact Hg |]. split.
  - split.
    + intros Hy. pose proof (calculateTrustLevel_yellow_inv _ _ Hy) as (Hok & HY).
      split; [done |]. split; [done |]. intros HG.
      assert (calculateTrustLevel m i = green) by (apply Hg; tauto). congruence.
    + intros ([? ?] & (? & ? & ? & ?) & HnG).
      assert (calculateTrustLevel m i ≠ red)
        by (by apply calculateTrustLevel_at_least_yellow).
      assert (calculateTrustLevel m i ≠ green) by (rewrite Hg; tauto).
      by destruct (calculateTrustLevel m i).
  - split.
    + intros Hr ([? ?] & ? & ? & ? & ?).
      by apply (calculateTrustLevel_at_least_yellow m i).
    + intros Hn. destruct (calculateTrustLevel m i) eqn:E; [done | |].
      * apply calculateTrustLevel_yellow_inv in E. tauto.
      * apply calculateTrustLevel_green_inv in E.
        destruct E as (? & ? & ? & ? & ?). exfalso. apply Hn.
        repeat split; try tauto; lra.
Qed.

(** Better inputs never give a lower tier: with a score, age and volume
    at least as high, a risk at most as high, verified if the other was
    and no honeypot unless the other had one, the tier is at least the
    other tier in the order red, yellow, green. *)
Theorem calculateTrustLevel_monotone (m m' : ContractMetadata) (i i' : SafetyIndicators) :
  safetyScore m <= safetyScore m' →
  contractAge m <= contractAge m' →
  transactionVolume m <= transactionVolume m' →
  rugPullRisk i' <= rugPullRisk i →
  (contractVerified i = true → contractVerified i' = true) →
  (honeypotDetected i' = true → honeypotDetected i = true) →
  (tier_rank (calculateTrustLevel m i) ≤ tier_rank (calculateTrustLevel m' i'))%nat.
Proof.
  intros Hs Ha Ht Hr Hv Hh.
  assert (∀ j : SafetyIndicators, honeypotDetected j = false ↔ honeypotDetected j ≠ true)
    as Hne by (intros j; destruct (honeypotDetected j); split; congruence).
  destruct (calculateTrustLevel m i) eqn:E; simpl; [lia | |].
  - apply calculateTrustLevel_yellow_inv in E as ([? Hf] & ? & ? & ? & ?).
    assert (calculateTrustLevel m' i' ≠ red).
    { apply calculateTrustLevel_at_least_yellow; try lra; [tauto |].
      apply Hne. intros Hp. apply Hh in Hp. congruence. }
    destruct (calculateTrustLevel m' i'); simpl; [done | lia | lia].
  - apply calculateTrustLevel_green_inv in E as ([? Hf] & ? & ? & ? & ?).
    rewrite (calculateTrustLevel_green m' i'); simpl; try lia; try lra; [tauto |].
    apply Hne. intros Hp. apply Hh in Hp. congruence.
Qed.

Lemma calculateTrustLevel_monotone_witness :
  (tier_rank (calculateTrustLevel young_contract risk_45)
   ≤ tier_rank (calculateTrustLevel at_green_boundary risk_20))%nat.
Proof.
  apply calculateTrustLevel_monotone; try (vm_compute; congruence); done.
Defined.

(** *** The score *)

Lemma calculateSafetyScore_clamp i :
  calculateSafetyScore i
  = inject_Z (clamp 0 100 (Qfloor (spec_raw_score i + (1 # 2)))).
Proof.
  rewrite calculateSafetyScore_raw. unfold Num.Math_round.
  by apply (NumFacts.Math_max_min_clamp 0 100).
Qed.

Lemma clamp_mono lo hi n n' : (lo ≤ hi)%Z → (n ≤ n')%Z → (clamp lo hi n ≤ clamp lo hi n')%Z.
Proof.
  intros Hlh Hn. unfold clamp.
  destruct (Z.ltb_spec n lo), (Z.ltb_spec n' lo); try lia;
    destruct (Z.ltb_spec hi n), (Z.ltb_spec hi n'); lia.
Qed.

Lemma bracket_mono (P P' : Prop) `{Decision P, Decision P'} :
  (P → P') → bracket P <= bracket P'.
Proof. intros HP. unfold bracket. do 2 case_decide; try done. tauto. Qed.

Lemma bracket_range (P : Prop) `{Decision P} : 0 <= bracket P <= 1.
Proof. unfold bracket. case_decide; split; done. Qed.

Lemma spec_raw_score_mono i i' : no_worse i i' → spec_raw_score i <= spec_raw_score i'.
Proof.
  intros (Hr & Hv & Hn & Hl & Hh & Hp). unfold spec_raw_score.
  pose proof (bracket_mono _ _ Hv). pose proof (bracket_mono _ _ Hn).
  pose proof (bracket_mono _ _ Hl). pose proof (bracket_mono _ _ Hh).
  pose proof (bracket_mono _ _ Hp). lra.
Qed.

(** The score never drops when the inputs get better: a lower risk, a
    flag gained among verified, renounced, liquidity above 70 and holders
    above 60, or a honeypot flag lost, gives a score at least as high. *)
Theorem calculateSafetyScore_monotone (i i' : SafetyIndicators) :
  no_worse i i' → calculateSafetyScore i <= calculateSafetyScore i'.
Proof.
  intros H. rewrite !calculateSafetyScore_clamp. rewrite <- Zle_Qle.
  apply clamp_mono; [lia |]. apply Qfloor_resp_le.
  apply spec_raw_score_mono in H. lra.
Qed.

Lemma calculateSafetyScore_monotone_witness :
  calculateSafetyScore risk_45 <= calculateSafetyScore risk_20.
Proof.
  apply calculateSafetyScore_monotone.
  repeat split; vm_compute; congruence.
Defined.

Lemma calculateSafetyScore_le i (b : Z) :
  (0 ≤ b)%Z → spec_raw_score i < inject_Z b + (1 # 2) →
  calculateSafetyScore i <= inject_Z b.
Proof.
  intros H0 Hb. rewrite calculateSafetyScore_clamp, <- Zle_Qle.
  pose proof (Qfloor_le (spec_raw_score i + (1 # 2))) as Hf.
  assert (inject_Z (Qfloor (spec_raw_score i + (1 # 2))) < inject_Z (b + 1)) as Hlt
    by (rewrite inject_Z_plus; change (inject_Z 1) with 1; lra).
  rewrite <- Zlt_Qlt in Hlt. unfold clamp.
  destruct (Z.ltb_spec (Qfloor (spec_raw_score i + (1 # 2))) 0); [lia |].
  destruct (Z.ltb_spec 100 (Qfloor (spec_raw_score i + (1 # 2)))); lia.
Qed.

Lemma calculateSafetyScore_ge i (b : Z) :
  (b ≤ 100)%Z → inject_Z b - (1 # 2) <= spec_raw_score i →
  inject_Z b <= calculateSafetyScore i.
Proof.
  intros H100 Hb. rewrite calculateSafetyScore_clamp, <- Zle_Qle.
  pose proof (Qlt_floor (spec_raw_score i + (1 # 2))) as Hf.
  assert (inject_Z b < inject_Z (Qfloor (spec_raw_score i + (1 # 2)) + 1)) as Hlt by lra.
  rewrite <- Zlt_Qlt in Hlt. unfold clamp.
  destruct (Z.ltb_spec (Qfloor (spec_raw_score i + (1 # 2))) 0); [lia |].
  destruct (Z.ltb_spec 100 (Qfloor (spec_raw_score i + (1 # 2)))); lia.
Qed.

Lemma bracket_true (P : Prop) `{Decision P} : P → bracket P = 1.
Proof. intros HP. unfold bracket. by case_decide. Qed.

Lemma bracket_false (P : Prop) `{Decision P} : ¬ P → bracket P = 0.
Proof. intros HP. unfold bracket. by case_decide. Qed.

(** On a risk that is not negative the score is at most 95, so the upper
    clamp at 100 never acts; it is at most 80 for an unverified contract
    and at most 55 for a honeypot.  On a risk of at most 100 a verified
    contract without honeypot scores at least 35. *)
Theorem calculateSafetyScore_bounds (i : SafetyIndicators) :
  (0 <= rugPullRisk i →
     calculateSafetyScore i <= 95
     ∧ (contractVerified i = false → calculateSafetyScore i <= 80)
     ∧ (honeypotDetected i = true → calculateSafetyScore i <= 55))
  ∧ (rugPullRisk i <= 100 → contractVerified i = true → honeypotDetected i = false →
     35 <= calculateSafetyScore i).
Proof.
  pose proof (bracket_range (contractVerified i = true)) as Bv.
  pose proof (bracket_range (hasRenounced i = true)) as Bn.
  pose proof (bracket_range (70 < liquidityScore i)) as Bl.
  pose proof (bracket_range (60 < holderDistribution i)) as Bh.
  pose proof (bracket_range (honeypotDetected i = true)) as Bp.
  split.
  - intros Hr. split; [| split].
    + apply (calculateSafetyScore_le i 95); [lia |].
      unfold spec_raw_score. change (inject_Z 95) with 95. lra.
    + intros Hv. apply (calculateSafetyScore_le i 80); [lia |].
      unfold spec_raw_score. change (inject_Z 80) with 80.
      rewrite (bracket_false (contractVerified i = true)) in * by congruence. lra.
    + intros Hp. apply (calculateSafetyScore_le i 55); [lia |].
      unfold spec_raw_score. change (inject_Z 55) with 55.
      rewrite (bracket_true (honeypotDetected i = true)) in * by done. lra.
  - intros Hr Hv Hp. apply (calculateSafetyScore_ge i 35); [lia |].
    unfold spec_raw_score. change (inject_Z 35) with 35.
    rewrite (bracket_true (contractVerified i = true)) in * by done.
    rewrite (bracket_false (honeypotDetected i = true)) in * by congruence. lra.
Qed.

Lemma calculateSafetyScore_bounds_witness :
  calculateSafetyScore all_flags <= 55 ∧ 35 <= calculateSafetyScore scenario.
Proof.
  destruct (calculateSafetyScore_bounds all_flags) as [Hup _].
  destruct (calculateSafetyScore_bounds scenario) as [_ Hlo].
  split.
  - apply Hup; [vm_compute; congruence | reflexivity].
  - apply Hlo; [vm_compute; congruence | reflexivity | reflexivity].
Defined.

(** *** Signals against the tier *)

Lemma generateMiterSignals_red_head i :
  head (generateMiterSignals i red) = Some "HIGH_RISK".
Proof.
  unfold generateMiterSignals, push_if. simpl. by repeat case_match.
Qed.

Lemma elem_of_generateMiterSignals i tier tag :
  tag ∈ generateMiterSignals i tier ↔ ∃ s, tag = signal_tag s ∧ signal_due i tier s = true.
Proof.
  rewrite generateMiterSignals_spec_signals. unfold spec_signals.
  rewrite list_elem_of_fmap. split.
  - intros (s & -> & Hin). exists s. split; [done |].
    apply list_elem_of_In, filter_In in Hin. tauto.
  - intros (s & -> & Hd). exists s. split; [done |].
    apply list_elem_of_In, filter_In. split; [| done]. destruct s; simpl; tauto.
Qed.

(** When the tier handed to [generateMiterSignals] is the one
    [calculateTrustLevel] computes from the same indicators, the signals
    are consistent with it: a honeypot, unverified or critical-risk tag
    only ever follows a leading HIGH_RISK; a green tier carries no tag but
    LOW_LIQUIDITY, CONCENTRATED_HOLDERS and OWNERSHIP_NOT_RENOUNCED; a
    yellow tier never carries CRITICAL_RUG_RISK. *)
Theorem signals_consistent_with_tier (m : ContractMetadata) (i : SafetyIndicators) :
  let tier := calculateTrustLevel m i in
  let signals := generateMiterSignals i tier in
  ("HONEYPOT_DETECTED" ∈ signals ∨ "UNVERIFIED_CONTRACT" ∈ signals
   ∨ "CRITICAL_RUG_RISK" ∈ signals → head signals = Some "HIGH_RISK")
  ∧ (tier = green →
     ∀ tag, tag ∈ signals →
            tag ∈ ["LOW_LIQUIDITY"; "CONCENTRATED_HOLDERS"; "OWNERSHIP_NOT_RENOUNCED"])
  ∧ (tier = yellow →
     ("HIGH_RISK" ∉ signals) ∧ ("HONEYPOT_DETECTED" ∉ signals)
     ∧ ("UNVERIFIED_CONTRACT" ∉ signals) ∧ ("CRITICAL_RUG_RISK" ∉ signals)).
Proof.
  intros tier signals. subst signals. split; [| split].
  - intros H.
    assert (tier = red) as ->; [| apply generateMiterSignals_red_head].
    destruct tier eqn:E; [done | |]; exfalso; subst tier.
    + apply calculateTrustLevel_yellow_inv in E as ([Hv Hp] & _ & Hr & _).
      destruct H as [H | [H | H]];
        apply elem_of_generateMiterSignals in H as (s & Hs & Hd);
        destruct s; try discriminate Hs; simpl in Hd; num_props;
        [congruence | congruence | lra].
    + apply calculateTrustLevel_green_inv in E as ([Hv Hp] & _ & Hr & _).
      destruct H as [H | [H | H]];
        apply elem_of_generateMiterSignals in H as (s & Hs & Hd);
        destruct s; try discriminate Hs; simpl in Hd; num_props;
        [congruence | congruence | lra].
  - intros E tag Hin. rewrite E in Hin. subst tier.
    apply calculateTrustLevel_green_inv in E as ([Hv Hp] & _ & Hr & _).
    apply elem_of_generateMiterSignals in Hin as (s & -> & Hd).
    destruct s; simpl in Hd; num_props; try congruence; try lra;
      simpl; set_solver.
  - intros E. rewrite E. subst tier.
    apply calculateTrustLevel_yellow_inv in E as ([Hv Hp] & _ & Hr & _).
    repeat split; intros Hin;
      apply elem_of_generateMiterSignals in Hin as (s & Hs & Hd);
      destruct s; try discriminate Hs; simpl in Hd; num_props;
      try congruence; lra.
Qed.

Lemma signals_consistent_with_tier_witness :
  head (generateMiterSignals all_flags (calculateTrustLevel at_green_boundary all_flags))
  = Some "HIGH_RISK".
Proof.
  destruct (signals_consistent_with_tier at_green_boundary all_flags) as (H & _).
  apply H. left. vm_compute. set_solver.
Defined.

(** ** More on the checker *)

Section CheckerFacts.
Context {R : Runtime}.
Implicit Types (this : RugPullChecker) (w : World) (a b : string).
Implicit Types (r cached : RugPullCheckResult).

Lemma RugPullChecker_eq this this' :
  checkCache this = checkCache this' →
  monitoredContracts this = monitoredContracts this' →
  this = this'.
Proof. destruct this, this'. simpl. by intros -> ->. Qed.

(** *** What a call leaves alone *)

Lemma fresh_check_frame a s :
  monitoredContracts (fresh_check a s).2.1 = monitoredContracts s.1
  ∧ (∀ b, b ≠ a → checkCache (fresh_check a s).2.1 !! b = checkCache s.1 !! b)
  ∧ (∀ e, (fresh_check a s).1 = inl e → (fresh_check a s).2.1 = s.1).
Proof.
  destruct s as [this w]. rewrite fresh_check_spec.
  destruct (analyzeContract a w) as [[e | i] w1]; simpl.
  - done.
  - split; [done |]. split; [| done]. intros b Hb. by rewrite lookup_insert_ne.
Qed.

Lemma checkContract_unfold a s :
  checkContract a s
  = match cache_probe s.1 s.2 a with
    | Some cached => (inr cached, s)
    | None => fresh_check a s
    end.
Proof. by destruct s. Qed.

Lemma checkContract_touches a (s : RugPullChecker * World) :
  monitoredContracts (checkContract a s).2.1 = monitoredContracts s.1
  ∧ (∀ b, b ≠ a → checkCache (checkContract a s).2.1 !! b = checkCache s.1 !! b)
  ∧ (∀ e, (checkContract a s).1 = inl e → (checkContract a s).2.1 = s.1).
Proof.
  rewrite checkContract_unfold.
  destruct (cache_probe s.1 s.2 a); [done |]. apply fresh_check_frame.
Qed.

(** [checkContract] touches one cache entry at most, the one of its own
    address, and never the monitored set; when it rejects, the checker is
    exactly as before: the failure is not cached and a stale entry of the
    address stays where it was. *)
Theorem checkContract_frame a (s : RugPullChecker * World) :
  monitoredContracts (checkContract a s).2.1 = monitoredContracts s.1
  ∧ (∀ b, b ≠ a → checkCache (checkContract a s).2.1 !! b = checkCache s.1 !! b)
  ∧ (∀ e, (checkContract a s).1 = inl e → (checkContract a s).2.1 = s.1).
Proof.
  rewrite checkContract_unfold.
  destruct (cache_probe s.1 s.2 a); [done |]. apply fresh_check_frame.
Qed.

(** *** The monitored set *)

Lemma resume_monitored calls s :
  monitoredContracts (resume calls s).2.1 = monitoredContracts s.1.
Proof.
  revert s. induction calls as [| [a [c |]] calls IH]; intros s; simpl; [done | |].
  - specialize (IH s). by destruct (resume calls s).
  - destruct (fresh_check_frame a s) as (Hm & _).
    destruct (fresh_check a s) as [o s1]. specialize (IH s1).
    destruct (resume calls s1). simpl in *. congruence.
Qed.

Lemma syncLiveMetadata_unfold s :
  syncLiveMetadata s = (inr (), (allSettled_checkContract (monitoredContracts s.1) s).2).
Proof.
  unfold syncLiveMetadata.
  by destruct (allSettled_checkContract (monitoredContracts s.1) s).
Qed.

Lemma getTrustRankings_unfold l s :
  getTrustRankings l s
  = (inr (collect_rankings l (allSettled_checkContract l s).1),
     (allSettled_checkContract l s).2).
Proof. unfold getTrustRankings. by destruct (allSettled_checkContract l s). Qed.

Lemma startMonitoring_monitored a this w :
  monitoredContracts (startMonitoring a (this, w)).2.1
  = if bool_decide (a ∈ monitoredContracts this) then monitoredContracts this
    else monitoredContracts this ++ [a].
Proof.
  unfold startMonitoring. case_bool_decide; [done |].
  match goal with |- context [checkContract a ?s] =>
    destruct (checkContract_touches a s) as (Hm & _);
    destruct (checkContract a s) as [[e | r] s1] end; done.
Qed.

(** The list that stands for the [Set] of monitored contracts never holds
    an address twice, and every cache entry sits under the address it was
    computed for, in every state the public methods can produce. *)
Theorem reachable_monitored_NoDup this :
  reachable this →
  NoDup (monitoredContracts this)
  ∧ ∀ k r, checkCache this !! k = Some r → contractAddress r = k.
Proof.
  intros Hreach. split.
  - induction Hreach.
    + constructor.
    + by destruct (checkContract_touches a (this, w)) as (-> & _).
    + rewrite startMonitoring_monitored. case_bool_decide; [done |].
      apply NoDup_app. split; [done |]. split; [| apply NoDup_singleton].
      intros x Hx ->%list_elem_of_singleton. done.
    + unfold stopMonitoring. simpl. by apply NoDup_filter.
    + rewrite syncLiveMetadata_unfold. unfold allSettled_checkContract. simpl.
      by rewrite resume_monitored.
    + rewrite flagUnsafeInteractions_state.
      by destruct (checkContract_touches a (this, w)) as (-> & _).
    + rewrite getTrustRankings_unfold. unfold allSettled_checkContract. simpl.
      by rewrite resume_monitored.
  - intros k r Hk. apply reachable_cache_wf in Hreach.
    apply Hreach in Hk. by rewrite Hk.
Qed.

Lemma checkContract_cache_only a this this' w :
  checkCache this' = checkCache this →
  (checkContract a (this', w)).1 = (checkContract a (this, w)).1
  ∧ checkCache (checkContract a (this', w)).2.1
    = checkCache (checkContract a (this, w)).2.1
  ∧ (checkContract a (this', w)).2.2 = (checkContract a (this, w)).2.2.
Proof.
  intros Heq. unfold checkContract, cache_probe. rewrite Heq.
  destruct (checkCache this !! a) as [c |].
  - destruct (isCacheValid w (timestamp c)); [done |].
    rewrite !fresh_check_spec, Heq.
    by destruct (analyzeContract a w) as [[e | i] w1].
  - rewrite !fresh_check_spec, Heq.
    by destruct (analyzeContract a w) as [[e | i] w1].
Qed.

(** [startMonitoring] of an address that is already monitored does
    nothing at all: no check, no cache write, the world untouched.  Of a
    new address it appends the address to the monitored list and then
    behaves like [checkContract]: same cache, same world, and it rejects
    with the same reason when the check rejects.  Either way the address
    is monitored afterwards, also after a rejected first check. *)
Theorem startMonitoring_spec a this w :
  (a ∈ monitoredContracts this →
     startMonitoring a (this, w) = (inr (), (this, w)))
  ∧ (a ∉ monitoredContracts this →
     monitoredContracts (startMonitoring a (this, w)).2.1
     = monitoredContracts this ++ [a]
     ∧ checkCache (startMonitoring a (this, w)).2.1
       = checkCache (checkContract a (this, w)).2.1
     ∧ (startMonitoring a (this, w)).2.2 = (checkContract a (this, w)).2.2
     ∧ (startMonitoring a (this, w)).1
       = match (checkContract a (this, w)).1 with
         | inl e => inl e
         | inr _ => inr ()
         end)
  ∧ a ∈ monitoredContracts (startMonitoring a (this, w)).2.1.
Proof.
  split; [| split].
  - intros Hin. unfold startMonitoring. by rewrite bool_decide_eq_true_2.
  - intros Hnin. split.
    + rewrite startMonitoring_monitored. by rewrite bool_decide_eq_false_2.
    + unfold startMonitoring. rewrite bool_decide_eq_false_2 by done.
      match goal with |- context [checkContract a (?t, w)] =>
        destruct (checkContract_cache_only a this t w eq_refl) as (H1 & H2 & H3);
        destruct (checkContract a (t, w)) as [[e | r] s1] end;
        simpl in *; by rewrite <- H1.
  - rewrite startMonitoring_monitored. case_bool_decide; [done |].
    apply elem_of_app. right. by apply list_elem_of_singleton.
Qed.

Lemma stopMonitoring_monitored a this :
  monitoredContracts (stopMonitoring a this)
  = filter (λ x, x ≠ a) (monitoredContracts this).
Proof. done. Qed.

Lemma stopMonitoring_checkCache a this :
  checkCache (stopMonitoring a this) = delete a (checkCache this).
Proof. done. Qed.

Lemma filter_ne_id a (l : list string) : a ∉ l → filter (λ x, x ≠ a) l = l.
Proof.
  induction l as [| x l IH]; [done |]. intros [Hx Hl]%not_elem_of_cons.
  rewrite filter_cons. rewrite decide_True by done. by rewrite IH.
Qed.

(** Starting to monitor a new address and stopping right away leaves the
    monitored list as it was; the cache is as before except that the entry
    of the address, if there was one, is gone. *)
Theorem start_then_stop a this w :
  a ∉ monitoredContracts this →
  monitoredContracts (stopMonitoring a (startMonitoring a (this, w)).2.1)
  = monitoredContracts this
  ∧ checkCache (stopMonitoring a (startMonitoring a (this, w)).2.1)
    = delete a (checkCache this).
Proof.
  intros Hnin. split.
  - rewrite stopMonitoring_monitored, startMonitoring_monitored.
    rewrite bool_decide_eq_false_2 by done.
    rewrite filter_app, filter_cons, filter_nil.
    rewrite decide_False by (by intros H; apply H).
    by rewrite app_nil_r, filter_ne_id.
  - rewrite stopMonitoring_checkCache.
    assert (checkCache (startMonitoring a (this, w)).2.1
            = checkCache (checkContract a (this, w)).2.1) as ->.
    { unfold startMonitoring. rewrite bool_decide_eq_false_2 by done.
      match goal with |- context [checkContract a (?t, w)] =>
        destruct (checkContract_cache_only a this t w eq_refl) as (H1 & H2 & H3);
        by destruct (checkContract a (t, w)) as [[e | r] s1] end. }
    apply map_eq. intros b.
    rewrite !lookup_delete. case_decide; [done |].
    by destruct (checkContract_touches a (this, w)) as (_ & -> & _).
Qed.

(** [stopMonitoring] is idempotent, its calls commute, and on an address
    that is neither monitored nor cached it changes nothing. *)
Theorem stopMonitoring_algebra a b this :
  stopMonitoring a (stopMonitoring a this) = stopMonitoring a this
  ∧ stopMonitoring a (stopMonitoring b this) = stopMonitoring b (stopMonitoring a this)
  ∧ (a ∉ monitoredContracts this → checkCache this !! a = None →
     stopMonitoring a this = this).
Proof.
  split; [| split].
  - apply RugPullChecker_eq.
    + rewrite !stopMonitoring_checkCache.
      apply map_eq. intros k. rewrite !lookup_delete. by case_decide.
    + rewrite !stopMonitoring_monitored. apply filter_ne_id.
      rewrite list_elem_of_filter. tauto.
  - apply RugPullChecker_eq.
    + rewrite !stopMonitoring_checkCache. apply delete_delete.
    + rewrite !stopMonitoring_monitored, !list_filter_filter.
      apply list_filter_iff. tauto.
  - intros Hnin Hc. apply RugPullChecker_eq.
    + rewrite stopMonitoring_checkCache. by apply delete_id.
    + rewrite stopMonitoring_monitored. by apply filter_ne_id.
Qed.

(** *** Batches again *)

Lemma resume_cache_frame calls s a :
  (a, None) ∉ calls →
  checkCache (resume calls s).2.1 !! a = checkCache s.1 !! a.
Proof.
  revert s. induction calls as [| [b [c |]] calls IH]; intros s Hnin; simpl; [done | |].
  - apply not_elem_of_cons in Hnin as [_ Hnin].
    specialize (IH s Hnin). by destruct (resume calls s).
  - apply not_elem_of_cons in Hnin as [Hne Hnin].
    assert (a ≠ b) as Hab by congruence.
    destruct (fresh_check_frame b s) as (_ & Hf & _). specialize (Hf a Hab).
    destruct (fresh_check b s) as [o s1]. specialize (IH s1 Hnin).
    destruct (resume calls s1). simpl in *. congruence.
Qed.

Lemma allSettled_checkContract_frame l s a :
  a ∉ l ∨ is_Some (cache_probe s.1 s.2 a) →
  checkCache (allSettled_checkContract l s).2.1 !! a = checkCache s.1 !! a.
Proof.
  intros H. unfold allSettled_checkContract. apply resume_cache_frame.
  intros Hin. apply list_elem_of_fmap in Hin as (x & [= <- Hx] & Hl).
  destruct H as [H | [c H]]; [done | congruence].
Qed.

(** [syncLiveMetadata] never rejects and never changes the monitored set;
    it leaves alone the cache entry of every address that is not
    monitored and of every address whose entry was still fresh on entry
    (a sync does not refresh what is fresh); with nothing monitored it
    does nothing. *)
Theorem syncLiveMetadata_frame (s : RugPullChecker * World) :
  (syncLiveMetadata s).1 = inr ()
  ∧ monitoredContracts (syncLiveMetadata s).2.1 = monitoredContracts s.1
  ∧ (∀ a, a ∉ monitoredContracts s.1 →
          checkCache (syncLiveMetadata s).2.1 !! a = checkCache s.1 !! a)
  ∧ (∀ a cached, cache_probe s.1 s.2 a = Some cached →
          checkCache (syncLiveMetadata s).2.1 !! a = Some cached)
  ∧ (monitoredContracts s.1 = [] → syncLiveMetadata s = (inr (), s)).
Proof.
  rewrite syncLiveMetadata_unfold. simpl. split; [done |]. split; [| split; [| split]].
  - unfold allSettled_checkContract. apply resume_monitored.
  - intros a Ha. apply allSettled_checkContract_frame. by left.
  - intros a c Hc. rewrite allSettled_checkContract_frame by (right; by eexists).
    by apply cache_probe_Some in Hc as [? _].
  - intros ->. done.
Qed.

(** [flagUnsafeInteractions] rejects exactly when [checkContract] rejects,
    with the same reason, and it always leaves the checker and the world
    as [checkContract] does. *)
Theorem flagUnsafeInteractions_rejects a (s : RugPullChecker * World) :
  (∀ e, (checkContract a s).1 = inl e ↔ (flagUnsafeInteractions a s).1 = inl e)
  ∧ (flagUnsafeInteractions a s).2 = (checkContract a s).2.
Proof.
  split; [| apply flagUnsafeInteractions_state].
  intros e. unfold flagUnsafeInteractions.
  destruct (checkContract a s) as [[e' | r] s']; simpl;
    [split; by intros [= ->] |].
  repeat case_match; simpl; split; discriminate.
Qed.

(** A ranking of one address is a single [checkContract]: the same final
    state, and the map holds the tier of the result, or nothing when the
    check rejects.  A ranking of no address is the empty map and changes
    nothing. *)
Theorem getTrustRankings_single a (s : RugPullChecker * World) :
  getTrustRankings [a] s
  = (inr match (checkContract a s).1 with
         | inr r => {[ a := riskLevel r ]}
         | inl _ => ∅
         end,
     (checkContract a s).2)
  ∧ getTrustRankings [] s = (inr ∅, s).
Proof.
  split; [| done].
  rewrite getTrustRankings_unfold, checkContract_unfold.
  unfold allSettled_checkContract. simpl.
  destruct (cache_probe s.1 s.2 a) as [c |]; simpl.
  - unfold collect_rankings. simpl. by rewrite insert_empty.
  - destruct (fresh_check a s) as [[e | r] s1]; simpl; [done |].
    unfold collect_rankings. simpl. by rewrite insert_empty.
Qed.

Lemma resume_fulfilled_built calls s v :
  cache_wf s.1 →
  (∀ a c, (a, Some c) ∈ calls → c = build_result a (indicators c) (timestamp c)) →
  fulfilled v ∈ (resume calls s).1 →
  v = build_result (contractAddress v) (indicators v) (timestamp v).
Proof.
  revert s. induction calls as [| [a [c |]] calls IH]; intros s Hwf Hc; simpl.
  - by intros ?%elem_of_nil.
  - specialize (IH s Hwf). destruct (resume calls s) as [rs s']. simpl in *.
    intros [[= ->] | Hin]%elem_of_cons.
    + assert (c = build_result a (indicators c) (timestamp c)) as Hb
        by (apply Hc; by left).
      assert (contractAddress c = a) as -> by (by rewrite Hb). exact Hb.
    + apply IH; [| done]. intros ???. apply Hc. by right.
  - destruct s as [this w].
    pose proof (fresh_check_wf this w a Hwf) as Hwf1.
    pose proof (fresh_check_spec this w a) as Hs.
    destruct (fresh_check a (this, w)) as [o s1]. specialize (IH s1 Hwf1).
    destruct (resume calls s1) as [rs s2]. simpl in *.
    intros [Hv | Hin]%elem_of_cons.
    + destruct (analyzeContract a w) as [[e | i] w1]; injection Hs as -> ->;
        simpl in Hv; [done |]. by injection Hv as ->.
    + apply IH; [| done]. intros ???. apply Hc. by right.
Qed.

(** With the thresholds as configured every tier in a ranking is red. *)
Theorem getTrustRankings_all_red (l : list string) this w a tier :
  cache_wf this →
  ∀ rankings, (getTrustRankings l (this, w)).1 = inr rankings →
  rankings !! a = Some tier → tier = red.
Proof.
  intros Hwf rankings. rewrite getTrustRankings_unfold. simpl. intros [= <-] Ha.
  apply collect_rankings_lookup in Ha as (k & v & _ & Hk & <-).
  assert (v = build_result (contractAddress v) (indicators v) (timestamp v)) as ->.
  { apply (resume_fulfilled_built
             (map (λ a, (a, cache_probe this w a)) l) (this, w)); [done | |].
    - intros b c Hin. apply list_elem_of_fmap in Hin as (x & [= <- Hx] & _).
      symmetry in Hx. apply cache_probe_Some in Hx as [Hx _]. by apply Hwf in Hx.
    - apply list_elem_of_lookup. by exists k. }
  apply build_result_red.
Qed.

End CheckerFacts.

Lemma monitoring_abc_reachable : reachable (R := failing_runtime "b") monitoring_abc.
Proof.
  pose (s0 := (new_RugPullChecker, 1000%Z) : RugPullChecker * @World (failing_runtime "b")).
  pose (s1 := (startMonitoring (R := failing_runtime "b") "a" s0).2).
  pose (s2 := (startMonitoring (R := failing_runtime "b") "b" s1).2).
  change (reachable (R := failing_runtime "b")
            (startMonitoring (R := failing_runtime "b") "c" (s2.1, s2.2)).2.1).
  apply reach_start.
  change (reachable (R := failing_runtime "b")
            (startMonitoring (R := failing_runtime "b") "b" (s1.1, s1.2)).2.1).
  apply reach_start.
  change (reachable (R := failing_runtime "b")
            (startMonitoring (R := failing_runtime "b") "a" (new_RugPullChecker, 1000%Z)).2.1).
  apply reach_start, reach_new.
Qed.

Lemma reachable_monitored_NoDup_witness :
  NoDup (monitoredContracts monitoring_abc)
  ∧ ∀ k r, checkCache monitoring_abc !! k = Some r → contractAddress r = k.
Proof.
  apply (reachable_monitored_NoDup (R := failing_runtime "b")).
  apply monitoring_abc_reachable.
Defined.

Lemma checkContract_frame_witness :
  checkCache (checkContract (R := placeholder_runtime) "b" (checked_at_1000, 2000%Z)).2.1 !! "a"
  = checkCache checked_at_1000 !! "a".
Proof.
  destruct (checkContract_frame (R := placeholder_runtime) "b" (checked_at_1000, 2000%Z))
    as (_ & H & _).
  apply (H "a"). discriminate.
Defined.

(** A provider rejection on a stale entry: the stale entry is still there. *)
Example checkContract_rejection_keeps_stale :
  let stale := (checkContract (R := failing_runtime "b") "a"
                  (new_RugPullChecker, 1000%Z)).2.1 in
  (checkContract (R := failing_runtime "a") "a" (stale, 400000%Z)).1
  = inl "provider error"
  ∧ checkCache (checkContract (R := failing_runtime "a") "a" (stale, 400000%Z)).2.1 !! "a"
    = Some (build_result "a" (placeholder_analyzeContract "a") 1000).
Proof. split; reflexivity. Qed.

Lemma startMonitoring_spec_witness :
  startMonitoring (R := failing_runtime "b") "b" (monitoring_abc, 5000%Z)
  = (inr (), (monitoring_abc, 5000%Z)).
Proof.
  destruct (startMonitoring_spec (R := failing_runtime "b") "b" monitoring_abc 5000%Z)
    as (H & _).
  apply H. by apply (bool_decide_unpack _).
Defined.

(** The first check of "b" was rejected, and "b" is monitored all the same. *)
Example startMonitoring_rejected_still_monitored :
  (startMonitoring (R := failing_runtime "b") "b" (new_RugPullChecker, 1000%Z)).1
  = inl "provider error"
  ∧ getMonitoredContracts
      (startMonitoring (R := failing_runtime "b") "b" (new_RugPullChecker, 1000%Z)).2.1
    = ["b"].
Proof. split; reflexivity. Qed.

Lemma start_then_stop_witness :
  monitoredContracts
    (stopMonitoring "d" (startMonitoring (R := failing_runtime "b") "d"
                           (monitoring_abc, 5000%Z)).2.1)
  = monitoredContracts monitoring_abc
  ∧ checkCache
      (stopMonitoring "d" (startMonitoring (R := failing_runtime "b") "d"
                             (monitoring_abc, 5000%Z)).2.1)
    = delete "d" (checkCache monitoring_abc).
Proof.
  apply (start_then_stop (R := failing_runtime "b")).
  by apply (bool_decide_unpack _).
Defined.

Lemma stopMonitoring_algebra_witness :
  stopMonitoring "d" monitoring_abc = monitoring_abc.
Proof.
  destruct (stopMonitoring_algebra "d" "a" monitoring_abc) as (_ & _ & H).
  apply H; [by apply (bool_decide_unpack _) | reflexivity].
Defined.

Lemma syncLiveMetadata_frame_witness :
  checkCache (syncLiveMetadata (R := failing_runtime "b") (monitoring_abc, 2000%Z)).2.1 !! "a"
  = Some (build_result "a" (placeholder_analyzeContract "a") 1000).
Proof.
  destruct (syncLiveMetadata_frame (R := failing_runtime "b") (monitoring_abc, 2000%Z))
    as (_ & _ & _ & H & _).
  apply H. reflexivity.
Defined.

Lemma getTrustRankings_all_red_witness :
  (getTrustRankings (R := placeholder_runtime) ["a"] (checked_at_1000, 2000%Z)).1
  = inr {[ "a" := red ]}
  ∧ ({[ "a" := red ]} : gmap string TrustLevel) !! "a" = Some red
  ∧ red = red.
Proof.
  split; [reflexivity |]. split; [reflexivity |].
  apply (getTrustRankings_all_red (R := placeholder_runtime)
           ["a"] checked_at_1000 2000%Z "a" red checked_at_1000_wf {[ "a" := red ]});
    reflexivity.
Defined.

(** ** The iterated map *)

Module JsMapFacts.

Lemma get_set_eq {V} k (v : V) m : JsMap.get k (JsMap.set k v m) = Some v.
Proof.
  induction m as [| [k' v'] m IH]; simpl.
  - by rewrite decide_True.
  - destruct (decide (k' = k)) as [-> | Hne]; simpl.
    + by rewrite decide_True.
    + by rewrite decide_False.
Qed.

Lemma get_set_ne {V} k k' (v : V) m :
  k ≠ k' → JsMap.get k' (JsMap.set k v m) = JsMap.get k' m.
Proof.
  intros Hne. induction m as [| [k0 v0] m IH]; simpl.
  - by rewrite decide_False.
  - destruct (decide (k0 = k)) as [-> | Hk]; simpl.
    + by rewrite !decide_False.
    + by rewrite IH.
Qed.

Lemma get_Some_elem_of {V} k (v : V) m : JsMap.get k m = Some v → (k, v) ∈ m.
Proof.
  induction m as [| [k' v'] m IH]; simpl; [done |].
  destruct (decide (k' = k)) as [-> | Hne].
  - intros [= ->]. by left.
  - intros H. right. by apply IH.
Qed.

Lemma get_None_keys {V} k (m : JsMap.t V) : JsMap.get k m = None ↔ k ∉ JsMap.keys m.
Proof.
  unfold JsMap.keys. induction m as [| [k' v'] m IH]; simpl.
  - split; [intros _; apply not_elem_of_nil | done].
  - rewrite not_elem_of_cons. destruct (decide (k' = k)) as [-> | Hne].
    + split; [done | tauto].
    + rewrite IH. split; [intros H; split; [congruence | done] | tauto].
Qed.

Lemma elem_of_get {V} k (v : V) m :
  NoDup (JsMap.keys m) → (k, v) ∈ m → JsMap.get k m = Some v.
Proof.
  unfold JsMap.keys. induction m as [| [k' v'] m IH]; simpl.
  - by intros _ ?%elem_of_nil.
  - intros [Hk Hnd]%NoDup_cons [[= -> ->] | Hin]%elem_of_cons.
    + by rewrite decide_True.
    + destruct (decide (k' = k)) as [-> | Hne]; [| by apply IH].
      exfalso. apply Hk. apply list_elem_of_fmap. by exists (k, v).
Qed.

(** [set] keeps the order of the keys: a present key stays where it is, a
    new one goes to the end. *)
Lemma keys_set {V} k (v : V) m :
  JsMap.keys (JsMap.set k v m)
  = if JsMap.has k m then JsMap.keys m else JsMap.keys m ++ [k].
Proof.
  unfold JsMap.keys, JsMap.has. induction m as [| [k' v'] m IH]; [done |].
  cbn [JsMap.set JsMap.get].
  destruct (decide (k' = k)) as [-> | Hne]; [done |].
  rewrite !fmap_cons, IH. by destruct (JsMap.get k m).
Qed.

Lemma keys_set_NoDup {V} k (v : V) m :
  NoDup (JsMap.keys m) → NoDup (JsMap.keys (JsMap.set k v m)).
Proof.
  intros Hnd. rewrite keys_set. unfold JsMap.has.
  destruct (JsMap.get k m) eqn:E; [done |].
  apply NoDup_app. split; [done |]. split; [| apply NoDup_singleton].
  intros x Hx ->%list_elem_of_singleton. by apply get_None_keys in E.
Qed.

Lemma elem_of_values_set {V} k (v : V) m : v ∈ JsMap.values (JsMap.set k v m).
Proof.
  unfold JsMap.values. apply list_elem_of_fmap. exists (k, v). split; [done |].
  apply get_Some_elem_of, get_set_eq.
Qed.

End JsMapFacts.

(** ** Jupiter: the safety verdict on a quote *)

(** A quote is safe exactly when its price impact is at most 5, its
    slippage at most 100 and its route at most 3 steps long, the limits
    included; it is safe iff there is no warning; and the warnings are
    those due, in the order impact, slippage, routing. *)
Theorem verifyTransactionSafety_spec {any : Type} (quote : Jupiter.JupiterQuote any) :
  let verdict := Jupiter.verifyTransactionSafety quote in
  (Jupiter.safe verdict = true
   ↔ Jupiter.priceImpactPct quote <= 5 ∧ Jupiter.slippageBps quote <= 100
     ∧ (length (Jupiter.route quote) ≤ 3)%nat)
  ∧ (Jupiter.safe verdict = true ↔ Jupiter.warnings verdict = [])
  ∧ sublist (Jupiter.warnings verdict)
      ["High price impact detected (>5%)"; "High slippage tolerance (>1%)";
       "Complex routing may increase failure risk"]
  ∧ ("High price impact detected (>5%)" ∈ Jupiter.warnings verdict
     ↔ 5 < Jupiter.priceImpactPct quote)
  ∧ ("High slippage tolerance (>1%)" ∈ Jupiter.warnings verdict
     ↔ 100 < Jupiter.slippageBps quote)
  ∧ ("Complex routing may increase failure risk" ∈ Jupiter.warnings verdict
     ↔ (3 < length (Jupiter.route quote))%nat).
Proof.
  unfold Jupiter.verifyTransactionSafety, push_if. simpl.
  destruct (Num.gt (Jupiter.priceImpactPct quote) 5) eqn:E1;
    [apply NumFacts.gt_spec in E1 | apply NumFacts.gt_false in E1];
  (destruct (Num.gt (Jupiter.slippageBps quote) 100) eqn:E2;
    [apply NumFacts.gt_spec in E2 | apply NumFacts.gt_false in E2]);
  (destruct (Nat.ltb_spec 3 (length (Jupiter.route quote))) as [E3 | E3]);
  simpl;
  (split; [split; [discriminate || by intros _ | intros (? & ? & ?); try done; try lra; lia] |]);
  (split; [split; done |]);
  (split; [repeat first [apply sublist_nil | apply sublist_skip | apply sublist_cons] |]);
  rewrite ?elem_of_cons, ?elem_of_nil;
  repeat split; intros; try done; try lia; try lra;
    repeat match goal with H : _ ∨ _ |- _ => destruct H end; try done;
    try (exfalso; lra); try (exfalso; lia); tauto.
Qed.

Lemma verifyTransactionSafety_spec_witness :
  Jupiter.safe (Jupiter.verifyTransactionSafety quote_at_limits) = true.
Proof.
  destruct (verifyTransactionSafety_spec quote_at_limits) as ([_ H] & _).
  apply H. repeat split; vm_compute; congruence || lia.
Defined.

Example verifyTransactionSafety_over_limits :
  Jupiter.verifyTransactionSafety quote_over_limits
  = {| Jupiter.safe := false;
       Jupiter.warnings :=
         ["High price impact detected (>5%)"; "High slippage tolerance (>1%)";
          "Complex routing may increase failure risk"] |}.
Proof. reflexivity. Qed.

(** ** The analyzer: recommended action and token library *)

(** The recommendation is [avoid] for a red tier or an unsafe slippage,
    whatever the profitability; else for a yellow tier it is [hold] above
    60 and [avoid] up to 60; for a green tier [buy] above 70, [hold]
    above 40 and up to 70, [sell] up to 40.  So [buy] and [sell] need a
    green tier, and nothing is recommended but [avoid] unless the slippage
    is safe. *)
Theorem determineRecommendedAction_spec
    (safetyLevel : TrustLevel) (profitability : Q) (slippageSafe : bool) :
  let action := Analyzer.determineRecommendedAction safetyLevel profitability slippageSafe in
  (action = Analyzer.buy
   ↔ safetyLevel = green ∧ slippageSafe = true ∧ 70 < profitability)
  ∧ (action = Analyzer.sell
     ↔ safetyLevel = green ∧ slippageSafe = true ∧ profitability <= 40)
  ∧ (action = Analyzer.hold
     ↔ slippageSafe = true
       ∧ ((safetyLevel = green ∧ 40 < profitability ∧ profitability <= 70)
          ∨ (safetyLevel = yellow ∧ 60 < profitability)))
  ∧ (action = Analyzer.avoid
     ↔ safetyLevel = red ∨ slippageSafe = false
       ∨ (safetyLevel = yellow ∧ profitability <= 60)).
Proof.
  unfold Analyzer.determineRecommendedAction.
  destruct safetyLevel, slippageSafe; simpl;
    try (repeat split; intros; try done; intuition congruence);
    repeat (match goal with
            | |- context [Num.gt ?a ?b] =>
                let E := fresh "E" in
                destruct (Num.gt a b) eqn:E;
                  [apply NumFacts.gt_spec in E | apply NumFacts.gt_false in E]
            end);
    repeat split; intros; try done; try lra;
    repeat match goal with
           | H : _ ∧ _ |- _ => destruct H
           | H : _ ∨ _ |- _ => destruct H
           end; try done; try lra; try (exfalso; lra); tauto.
Qed.

(** *** The token library *)

Lemma library_reachable_inv lib :
  library_reachable lib →
  NoDup (JsMap.keys lib) ∧ ∀ k token, (k, token) ∈ lib → Analyzer.address token = k.
Proof.
  induction 1 as [| token lib Hr [IHn IHk]].
  - split; [by apply (bool_decide_unpack _) |].
    intros k token Hin. vm_compute in Hin.
    apply elem_of_cons in Hin as [[= -> ->] | Hin]; [done |].
    apply elem_of_cons in Hin as [[= -> ->] | Hin]; [done |].
    by apply elem_of_nil in Hin.
  - split; [by apply JsMapFacts.keys_set_NoDup |].
    unfold Analyzer.addTokenToLibrary. intros k t Hin.
    apply JsMapFacts.elem_of_get in Hin; [| by apply JsMapFacts.keys_set_NoDup].
    destruct (decide (Analyzer.address token = k)) as [<- | Hne].
    + rewrite JsMapFacts.get_set_eq in Hin. by injection Hin as <-.
    + rewrite JsMapFacts.get_set_ne in Hin by done.
      by apply IHk, JsMapFacts.get_Some_elem_of.
Qed.

(** What is added to the library can be looked up under its address, and
    other addresses are not touched.  An address counts as slippage-safe
    as soon as the library has an entry for it, verified or not.  The
    verified tokens of a platform are exactly the entries one can look up
    under their own address that are of the platform and verified, so an
    unverified entry is slippage-safe without being listed. *)
Theorem token_library_spec
    (token : Analyzer.TokenLibraryEntry) (lib : Analyzer.TokenLibrary) :
  Analyzer.getToken (Analyzer.address token) (Analyzer.addTokenToLibrary token lib)
  = Some token
  ∧ (∀ a, a ≠ Analyzer.address token →
          Analyzer.getToken a (Analyzer.addTokenToLibrary token lib)
          = Analyzer.getToken a lib)
  ∧ (∀ a, Analyzer.checkSlippageSafety a (Analyzer.addTokenToLibrary token lib) = true
          ↔ a = Analyzer.address token ∨ Analyzer.checkSlippageSafety a lib = true)
  ∧ (∀ a, Analyzer.checkSlippageSafety a lib = true
          ↔ is_Some (Analyzer.getToken a lib))
  ∧ (library_reachable lib →
     ∀ p t, t ∈ Analyzer.getVerifiedTokensByPlatform p lib
            ↔ Analyzer.getToken (Analyzer.address t) lib = Some t
              ∧ Analyzer.platform t = p ∧ Analyzer.verified t = true).
Proof.
  unfold Analyzer.getToken, Analyzer.addTokenToLibrary, Analyzer.checkSlippageSafety,
    JsMap.has.
  split; [apply JsMapFacts.get_set_eq |]. split; [| split; [| split]].
  - intros a Ha. by apply JsMapFacts.get_set_ne.
  - intros a. destruct (decide (Analyzer.address token = a)) as [<- | Hne].
    + rewrite JsMapFacts.get_set_eq. tauto.
    + rewrite JsMapFacts.get_set_ne by done.
      destruct (JsMap.get a lib); split; intros H; try done; try tauto;
        by destruct H.
  - intros a. destruct (JsMap.get a lib); split; intros H; try done;
      try (by eexists); by destruct H.
  - intros Hr p t. apply library_reachable_inv in Hr as [Hn Hk].
    unfold Analyzer.getVerifiedTokensByPlatform, JsMap.values.
    rewrite list_elem_of_In, filter_In, <- list_elem_of_In,
      andb_true_iff, bool_decide_eq_true, list_elem_of_fmap.
    split.
    + intros [([k t'] & -> & Hin) [Hp Hv]]. simpl in *.
      split; [| done]. rewrite (Hk _ _ Hin). by apply JsMapFacts.elem_of_get.
    + intros (Hg & Hp & Hv). split; [| done].
      exists (Analyzer.address t, t). split; [done |].
      by apply JsMapFacts.get_Some_elem_of.
Qed.

Lemma token_library_spec_witness :
  ray_token
    ∈ Analyzer.getVerifiedTokensByPlatform Analyzer.radium
        (Analyzer.addTokenToLibrary unverified_token Analyzer.initializeTokenLibrary).
Proof.
  destruct (token_library_spec unverified_token
              (Analyzer.addTokenToLibrary unverified_token Analyzer.initializeTokenLibrary))
    as (_ & _ & _ & _ & H).
  apply H; [apply library_add, library_initial |].
  repeat split; reflexivity.
Defined.

(** The initial library lists RAY for radium and ORCA for orca. *)
Example initial_verified_tokens :
  Analyzer.getVerifiedTokensByPlatform Analyzer.radium Analyzer.initializeTokenLibrary
  = Analyzer.radiumTokens
  ∧ Analyzer.getVerifiedTokensByPlatform Analyzer.orca Analyzer.initializeTokenLibrary
    = Analyzer.orcaTokens.
Proof. split; reflexivity. Qed.

(** An unverified token that was added is slippage-safe and not listed. *)
Example unverified_token_is_slippage_safe :
  let lib := Analyzer.addTokenToLibrary unverified_token Analyzer.initializeTokenLibrary in
  Analyzer.checkSlippageSafety "scam-address" lib = true
  ∧ Analyzer.getVerifiedTokensByPlatform Analyzer.radium lib = Analyzer.radiumTokens.
Proof. split; reflexivity. Qed.

(** Adding an entry under the address of RAY replaces RAY where it stood. *)
Example ray_can_be_replaced :
  let lib := Analyzer.addTokenToLibrary ray_unverified Analyzer.initializeTokenLibrary in
  JsMap.keys lib = JsMap.keys Analyzer.initializeTokenLibrary
  ∧ Analyzer.getVerifiedTokensByPlatform Analyzer.radium lib = [].
Proof. split; reflexivity. Qed.

(** ** The analyzer: assessments *)

Section AnalyzerFacts.
Context {R : Runtime}.
Implicit Types (this : ContractAnalyzer.t) (s : RugPullChecker * World) (a : string).
Implicit Types (an cached : ContractAnalyzer.ContractAnalysis).

Lemma analyzer_isCacheValid_spec w ts :
  ContractAnalyzer.isCacheValid w ts = true ↔ (Date_now w - ts < 600000)%Z.
Proof. unfold ContractAnalyzer.isCacheValid. apply Z.ltb_lt. Qed.

Lemma analysis_probe_Some this w a cached :
  ContractAnalyzer.analysis_probe this w a = Some cached
  ↔ ContractAnalyzer.analysisCache this !! a = Some cached
    ∧ (Date_now w - ContractAnalyzer.updatedAt cached < 600000)%Z.
Proof.
  unfold ContractAnalyzer.analysis_probe.
  destruct (ContractAnalyzer.analysisCache this !! a) as [c |].
  - destruct (ContractAnalyzer.isCacheValid w (ContractAnalyzer.updatedAt c)) eqn:E.
    + split.
      * intros [= <-]. split; [done | by apply analyzer_isCacheValid_spec].
      * by intros [[= <-] _].
    + split; [done |]. intros [[= <-] H].
      apply analyzer_isCacheValid_spec in H. congruence.
  - split; [done |]. by intros [? _].
Qed.

Lemma analysis_probe_None this w a :
  ContractAnalyzer.analysis_probe this w a = None
  ↔ ∀ cached, ContractAnalyzer.analysisCache this !! a = Some cached →
              (600000 ≤ Date_now w - ContractAnalyzer.updatedAt cached)%Z.
Proof.
  unfold ContractAnalyzer.analysis_probe, ContractAnalyzer.isCacheValid.
  destruct (ContractAnalyzer.analysisCache this !! a) as [c |]; [| done].
  destruct (Z.ltb_spec (Date_now w - ContractAnalyzer.updatedAt c) (10 * 60 * 1000)).
  - split; [done |]. intros H'. specialize (H' c eq_refl). lia.
  - split; [| done]. intros _ ? [= <-]. lia.
Qed.

Lemma assessContractSafety_unfold a this s :
  ContractAnalyzer.assessContractSafety a (this, s)
  = match ContractAnalyzer.analysis_probe this s.2 a with
    | Some cached => (inr cached, (this, s))
    | None =>
        match (checkContract a s).1 with
        | inl e => (inl e, (this, (checkContract a s).2))
        | inr rugCheck =>
            let analysis :=
              ContractAnalyzer.build_analysis a rugCheck
                (ContractAnalyzer.tokenLibrary this) (Date_now (checkContract a s).2.2) in
            (inr analysis,
             (ContractAnalyzer.store_analysis a analysis this, (checkContract a s).2))
        end
    end.
Proof.
  unfold ContractAnalyzer.assessContractSafety.
  destruct (ContractAnalyzer.analysis_probe this s.2 a); [done |].
  by destruct (checkContract a s) as [[e | r] s'].
Qed.

(** A cached analysis is served while it is less than 600000 ms old, with
    nothing recomputed and nothing written, whatever the rug checker holds
    by then (its own entry may have expired after 300000 ms or been
    evicted by [stopMonitoring]) and whatever the token library has become.
    At 600000 ms or more it is dropped and the address is checked through
    [checkContract] again. *)
Theorem analysis_cache_outlives_check this w a cached :
  ContractAnalyzer.analysisCache this !! a = Some cached →
  ((Date_now w - ContractAnalyzer.updatedAt cached < 600000)%Z →
   ∀ checker lib,
     let this' := {| ContractAnalyzer.analysisCache := ContractAnalyzer.analysisCache this;
                     ContractAnalyzer.tokenLibrary := lib |} in
     ContractAnalyzer.assessContractSafety a (this', (checker, w))
     = (inr cached, (this', (checker, w))))
  ∧ ((600000 ≤ Date_now w - ContractAnalyzer.updatedAt cached)%Z →
     ∀ checker,
       (ContractAnalyzer.assessContractSafety a (this, (checker, w))).2.2
       = (checkContract a (checker, w)).2
       ∧ ∀ an, (ContractAnalyzer.assessContractSafety a (this, (checker, w))).1 = inr an →
               ContractAnalyzer.updatedAt an = Date_now (checkContract a (checker, w)).2.2).
Proof.
  intros Hc. split.
  - intros Ht checker lib this'. rewrite assessContractSafety_unfold.
    change ((checker, w).2) with w.
    by rewrite (proj2 (analysis_probe_Some this' w a cached)).
  - intros Ht checker. rewrite assessContractSafety_unfold.
    change ((checker, w).2) with w.
    rewrite (proj2 (analysis_probe_None this w a))
      by (intros c; rewrite Hc; by intros [= <-]).
    destruct (checkContract a (checker, w)) as [[e | r] s']; simpl; [done |].
    split; [done |]. by intros an [= <-].
Qed.

(** When no fresh analysis is cached, [assessContractSafety] is a
    [checkContract] with an analysis built on top: it rejects exactly when
    the check rejects, with the same reason, and then leaves the analyzer
    as it was; when the check succeeds the analysis carries the tier of the
    check, counts the address slippage-safe iff the library has it, and is
    the entry of the address in the cache afterwards. *)
Theorem assessContractSafety_miss this s a :
  ContractAnalyzer.analysis_probe this s.2 a = None →
  (∀ e, (ContractAnalyzer.assessContractSafety a (this, s)).1 = inl e
        ↔ (checkContract a s).1 = inl e)
  ∧ (∀ e, (checkContract a s).1 = inl e →
          (ContractAnalyzer.assessContractSafety a (this, s)).2.1 = this)
  ∧ (∀ an, (ContractAnalyzer.assessContractSafety a (this, s)).1 = inr an →
       (∃ r, (checkContract a s).1 = inr r
             ∧ ContractAnalyzer.safetyAssessment an = riskLevel r)
       ∧ ContractAnalyzer.slippageSafety an
         = JsMap.has a (ContractAnalyzer.tokenLibrary this)
       ∧ ContractAnalyzer.analysisCache
           (ContractAnalyzer.assessContractSafety a (this, s)).2.1 !! a = Some an)
  ∧ (ContractAnalyzer.assessContractSafety a (this, s)).2.2 = (checkContract a s).2.
Proof.
  intros Hp. rewrite assessContractSafety_unfold, Hp.
  destruct (checkContract a s) as [[e | r] s']; simpl.
  - split; [intros e'; split; by intros [= ->] |]. split; [done |]. split; [| done].
    by intros an [= ].
  - split; [intros e'; split; by intros [= ] |].
    split; [by intros e' [= ] |]. split; [| done].
    intros an [= <-]. split; [by exists r |]. split; [done |].
    by rewrite lookup_insert_eq.
Qed.

(** *** Every assessment says avoid *)

Lemma build_analysis_avoid k r lib now :
  r = build_result k (indicators r) (timestamp r) →
  ContractAnalyzer.safetyAssessment (ContractAnalyzer.build_analysis k r lib now) = red
  ∧ ContractAnalyzer.recommendedAction (ContractAnalyzer.build_analysis k r lib now)
    = Analyzer.avoid.
Proof.
  intros Hr. destruct (build_result_red k (indicators r) (timestamp r)) as [H1 _].
  rewrite <- Hr in H1. unfold ContractAnalyzer.build_analysis. simpl.
  by rewrite H1.
Qed.

Lemma analysis_wf_avoid this k an :
  ContractAnalyzer.cache_wf this →
  ContractAnalyzer.analysisCache this !! k = Some an →
  ContractAnalyzer.safetyAssessment an = red
  ∧ ContractAnalyzer.recommendedAction an = Analyzer.avoid.
Proof.
  intros Hwf Hk. apply Hwf in Hk as (r & lib & Hr & ->).
  by apply build_analysis_avoid.
Qed.

Lemma analyzer_cache_wf_new : ContractAnalyzer.cache_wf ContractAnalyzer.new.
Proof. unfold ContractAnalyzer.cache_wf. simpl. apply map_Forall_empty. Qed.

Lemma store_analysis_wf this k r lib now :
  ContractAnalyzer.cache_wf this →
  r = build_result k (indicators r) (timestamp r) →
  ContractAnalyzer.cache_wf
    (ContractAnalyzer.store_analysis k (ContractAnalyzer.build_analysis k r lib now) this).
Proof.
  intros Hwf Hr. unfold ContractAnalyzer.cache_wf, ContractAnalyzer.store_analysis. simpl.
  apply map_Forall_insert_2; [| done]. by exists r, lib.
Qed.

Lemma assessContractSafety_wf this s a :
  cache_wf s.1 → ContractAnalyzer.cache_wf this →
  cache_wf (ContractAnalyzer.assessContractSafety a (this, s)).2.2.1
  ∧ ContractAnalyzer.cache_wf (ContractAnalyzer.assessContractSafety a (this, s)).2.1.
Proof.
  intros Hc Ha. rewrite assessContractSafety_unfold.
  destruct (ContractAnalyzer.analysis_probe this s.2 a); [done |].
  destruct s as [checker w].
  pose proof (checkContract_wf checker w a Hc) as Hc'.
  pose proof (checkContract_built checker w a) as Hb.
  destruct (checkContract a (checker, w)) as [[e | r] s']; simpl in *; [done |].
  split; [done |]. apply store_analysis_wf; [done |]. by apply (Hb r s').
Qed.

(** With the thresholds as configured, whatever [assessContractSafety]
    returns has the red tier and recommends [avoid], with the placeholder
    profitability 50 and gas estimate 0.001: no address is ever
    recommended for buying, holding or selling. *)
Theorem assessContractSafety_always_avoid this s a an st' :
  cache_wf s.1 → ContractAnalyzer.cache_wf this →
  ContractAnalyzer.assessContractSafety a (this, s) = (inr an, st') →
  ContractAnalyzer.safetyAssessment an = red
  ∧ ContractAnalyzer.recommendedAction an = Analyzer.avoid.
Proof.
  intros Hc Ha. rewrite assessContractSafety_unfold.
  destruct (ContractAnalyzer.analysis_probe this s.2 a) as [c |] eqn:E.
  - intros [= <- <-]. apply analysis_probe_Some in E as [E _].
    by apply (analysis_wf_avoid this a).
  - destruct s as [checker w].
    pose proof (checkContract_built checker w a) as Hb.
    destruct (checkContract a (checker, w)) as [[e | r] s']; simpl; [done |].
    intros [= <- <-]. apply build_analysis_avoid. by apply (Hb r s').
Qed.

(** *** Two at once *)

Lemma resume_one_red now0 a this s x st' :
  cache_wf s.1 → ContractAnalyzer.cache_wf this →
  ∀ this0 s0,
    ContractAnalyzer.cache_wf this0 → cache_wf s0.1 →
    ContractAnalyzer.resume_one now0 (a, ContractAnalyzer.plan this0 s0 a) (this, s)
    = (x, st') →
    cache_wf st'.2.1 ∧ ContractAnalyzer.cache_wf st'.1
    ∧ ∀ an, x = fulfilled an →
            ContractAnalyzer.address an = a
            ∧ ContractAnalyzer.safetyAssessment an = red
            ∧ ContractAnalyzer.recommendedAction an = Analyzer.avoid.
Proof.
  intros Hc Ha this0 s0 Ha0 Hc0. unfold ContractAnalyzer.plan.
  destruct (ContractAnalyzer.analysis_probe this0 s0.2 a) as [c |] eqn:E1.
  - simpl. intros [= <- <-]. split; [done |]. split; [done |].
    intros an [= <-]. apply analysis_probe_Some in E1 as [E1 _].
    split; [| by apply (analysis_wf_avoid this0 a)].
    destruct (Ha0 _ _ E1) as (rc & lib & _ & ->). done.
  - destruct (cache_probe s0.1 s0.2 a) as [r |] eqn:E2.
    + simpl. intros [= <- <-]. simpl.
      apply cache_probe_Some in E2 as [E2 _]. apply Hc0 in E2.
      split; [done |]. split; [by apply store_analysis_wf |].
      intros an [= <-]. split; [done |]. by apply build_analysis_avoid.
    + simpl. destruct s as [checker w].
      pose proof (fresh_check_wf checker w a Hc) as Hc'.
      pose proof (fresh_check_spec checker w a) as Hs.
      destruct (fresh_check a (checker, w)) as [[e | r] s'].
      * intros [= <- <-]. simpl. split; [done |]. split; [done |]. by intros an [= ].
      * intros [= <- <-]. simpl.
        assert (r = build_result a (indicators r) (timestamp r)) as Hr.
        { destruct (analyzeContract a w) as [[e | i] w1]; [done |].
          by injection Hs as -> _. }
        split; [done |]. split; [by apply store_analysis_wf |].
        intros an [= <-]. split; [done |]. by apply build_analysis_avoid.
Qed.

(** With the thresholds as configured [getSwapRoute] never reports a safe
    route: whenever it returns, [safe] is false; the route is the two
    tokens as given and the estimated output is the amount. *)
Theorem getSwapRoute_never_safe inputToken outputToken amount this s sr st' :
  cache_wf s.1 → ContractAnalyzer.cache_wf this →
  ContractAnalyzer.getSwapRoute inputToken outputToken amount (this, s) = (inr sr, st') →
  ContractAnalyzer.safe sr = false
  ∧ ContractAnalyzer.route sr = [inputToken; outputToken]
  ∧ ContractAnalyzer.estimatedOutput sr = amount.
Proof.
  intros Hc Ha. unfold ContractAnalyzer.getSwapRoute.
  cbn [fst snd].
  destruct (ContractAnalyzer.resume_one (Date_now s.2)
              (inputToken, ContractAnalyzer.plan this s inputToken) (this, s))
    as [r1 st1] eqn:E1.
  destruct (ContractAnalyzer.resume_one (Date_now s.2)
              (outputToken, ContractAnalyzer.plan this s outputToken) st1)
    as [r2 st2] eqn:E2.
  destruct (resume_one_red _ _ _ _ _ _ Hc Ha this s Ha Hc E1) as (_ & _ & Hr1).
  destruct r1 as [v1 | e1]; simpl; [| done].
  destruct r2 as [v2 | e2]; simpl; [| done].
  intros [= <- <-]. simpl.
  destruct (Hr1 v1 eq_refl) as (_ & -> & _). done.
Qed.

(** *** Batches *)





End AnalyzerFacts.

Lemma assessed_at_1000_wf :
  cache_wf assessed_at_1000.2.1 ∧ ContractAnalyzer.cache_wf assessed_at_1000.1.
Proof.
  apply (assessContractSafety_wf (R := placeholder_runtime)
           ContractAnalyzer.new (new_RugPullChecker, 1000%Z) "a").
  - apply cache_wf_new.
  - apply analyzer_cache_wf_new.
Qed.

(** The analysis of clock 1000 is still served at clock 400000, after the
    rug check behind it has expired and the address has been dropped from
    monitoring. *)
Lemma analysis_cache_outlives_check_witness :
  ContractAnalyzer.assessContractSafety (R := placeholder_runtime) "a"
    (assessed_at_1000.1, (stopMonitoring "a" assessed_at_1000.2.1, 400000%Z))
  = (inr (ContractAnalyzer.build_analysis "a"
            (build_result "a" (placeholder_analyzeContract "a") 1000)
            Analyzer.initializeTokenLibrary 1000),
     (assessed_at_1000.1, (stopMonitoring "a" assessed_at_1000.2.1, 400000%Z))).
Proof.
  destruct (analysis_cache_outlives_check (R := placeholder_runtime)
              assessed_at_1000.1 400000%Z "a"
              (ContractAnalyzer.build_analysis "a"
                 (build_result "a" (placeholder_analyzeContract "a") 1000)
                 Analyzer.initializeTokenLibrary 1000))
    as (H & _); [reflexivity |].
  apply (H ltac:(vm_compute; reflexivity)
           (stopMonitoring "a" assessed_at_1000.2.1) Analyzer.initializeTokenLibrary).
Defined.

Lemma assessContractSafety_miss_witness :
  (ContractAnalyzer.assessContractSafety (R := failing_runtime "b") "b"
     (ContractAnalyzer.new, (new_RugPullChecker, 1000%Z))).2.1
  = ContractAnalyzer.new.
Proof.
  destruct (assessContractSafety_miss (R := failing_runtime "b")
              ContractAnalyzer.new (new_RugPullChecker, 1000%Z) "b")
    as (_ & H & _); [reflexivity |].
  apply (H "provider error"). reflexivity.
Defined.

Lemma assessContractSafety_always_avoid_witness :
  ContractAnalyzer.safetyAssessment
    (ContractAnalyzer.build_analysis "a"
       (build_result "a" (placeholder_analyzeContract "a") 1000)
       Analyzer.initializeTokenLibrary 1000) = red
  ∧ ContractAnalyzer.recommendedAction
      (ContractAnalyzer.build_analysis "a"
         (build_result "a" (placeholder_analyzeContract "a") 1000)
         Analyzer.initializeTokenLibrary 1000) = Analyzer.avoid.
Proof.
  apply (assessContractSafety_always_avoid (R := placeholder_runtime)
           assessed_at_1000.1 (assessed_at_1000.2.1, 2000%Z) "a" _
           (assessed_at_1000.1, (assessed_at_1000.2.1, 2000%Z))).
  - apply assessed_at_1000_wf.
  - apply assessed_at_1000_wf.
  - reflexivity.
Defined.

(** The two library tokens, both slippage-safe: the route is still unsafe. *)
Lemma getSwapRoute_never_safe_witness :
  ContractAnalyzer.safe
    {| ContractAnalyzer.safe := false;
       ContractAnalyzer.route :=
         ["4k3Dyjzvzp8eMZWUXbBCjEvwSkkk59S5iCNLY3QrkX6R";
          "orcaEKTdK7LKz57vaAYr9QeNsVEPfiu6QeMU1kektZE"];
       ContractAnalyzer.estimatedOutput := 1000 |} = false
  ∧ (ContractAnalyzer.getSwapRoute (R := placeholder_runtime)
       "4k3Dyjzvzp8eMZWUXbBCjEvwSkkk59S5iCNLY3QrkX6R"
       "orcaEKTdK7LKz57vaAYr9QeNsVEPfiu6QeMU1kektZE" 1000
       (ContractAnalyzer.new, (new_RugPullChecker, 1000%Z))).1
    = inr {| ContractAnalyzer.safe := false;
             ContractAnalyzer.route :=
               ["4k3Dyjzvzp8eMZWUXbBCjEvwSkkk59S5iCNLY3QrkX6R";
                "orcaEKTdK7LKz57vaAYr9QeNsVEPfiu6QeMU1kektZE"];
             ContractAnalyzer.estimatedOutput := 1000 |}.
Proof.
  split; [| reflexivity].
  eapply (getSwapRoute_never_safe (R := placeholder_runtime)
            "4k3Dyjzvzp8eMZWUXbBCjEvwSkkk59S5iCNLY3QrkX6R"
            "orcaEKTdK7LKz57vaAYr9QeNsVEPfiu6QeMU1kektZE" 1000
            ContractAnalyzer.new (new_RugPullChecker, 1000%Z)).
  - apply cache_wf_new.
  - apply analyzer_cache_wf_new.
  - reflexivity.
Defined.

(** The first assessment of a library token: red, slippage-safe, avoid. *)
Example assess_ray :
  (ContractAnalyzer.assessContractSafety (R := placeholder_runtime)
     "4k3Dyjzvzp8eMZWUXbBCjEvwSkkk59S5iCNLY3QrkX6R"
     (ContractAnalyzer.new, (new_RugPullChecker, 1000%Z))).1
  = inr {| ContractAnalyzer.address := "4k3Dyjzvzp8eMZWUXbBCjEvwSkkk59S5iCNLY3QrkX6R";
           ContractAnalyzer.safetyAssessment := red;
           ContractAnalyzer.profitabilityScore := 50;
           ContractAnalyzer.gasEstimate := 1 # 1000;
           ContractAnalyzer.slippageSafety := true;
           ContractAnalyzer.recommendedAction := Analyzer.avoid;
           ContractAnalyzer.updatedAt := 1000 |}.
Proof. reflexivity. Qed.


(** The address that fails is left out, the one asked twice comes once. *)
Example batch_with_failure :
  JsMap.keys
    (default []
       (match (ContractAnalyzer.batchAnalyzeContracts (R := failing_runtime "b")
                 ["a"; "b"; "a"]
                 (ContractAnalyzer.new, (new_RugPullChecker, 1000%Z))).1 with
        | inr results => Some results
        | inl _ => None
        end))
  = ["a"].
Proof. reflexivity. Qed.

(** ** The platform aggregator: contract age and enrichment *)

Section AggregatorFacts.
Context {R : Runtime}.





End AggregatorFacts.

(** Deployed 30 days in the future, no name: 30 days old, green, "Unknown". *)
Example enrich_future_deployment :
  PlatformAggregator.enrichContractMetadata (R := placeholder_runtime)
    raw_future "radium" 1000%Z
  = {| PlatformAggregator.metadata :=
         {| name := "Unknown"; address := "a"; deployer := "Unknown";
            contractAge := 30; transactionVolume := 250000; safetyScore := 95 |};
       PlatformAggregator.trustLevel := green |}.
Proof. reflexivity. Qed.

(** One millisecond after deployment the contract is one day old. *)
Example age_after_one_millisecond :
  PlatformAggregator.calculateContractAge (R := placeholder_runtime) 1001%Z 1000%Z = 1.
Proof. reflexivity. Qed.

(** ** The platform lists *)

Section PlatformFacts.
Context `{S : Platforms.Source}.







End PlatformFacts.

(** A refresh at clock 5000 during which orca is down: three lists come
    back, and the orca list of clock 1000 is still in the cache. *)
Example refresh_with_orca_down :
  let out := Platforms.fetchAllPlatforms (R := placeholder_runtime)
               (S := Platforms.failing_source "https://api.orca.so")
               (platforms_fetched_at_1000, 5000%Z) in
  out.1 = inr [ {| Platforms.platform := Platforms.radium; Platforms.contracts := [];
                   Platforms.lastUpdated := 5000 |};
                {| Platforms.platform := Platforms.pump; Platforms.contracts := [];
                   Platforms.lastUpdated := 5000 |};
                {| Platforms.platform := Platforms.meteors; Platforms.contracts := [];
                   Platforms.lastUpdated := 5000 |} ]
  ∧ Platforms.lastUpdated <$> Platforms.getAllPlatformLists out.2.1
    = [5000; 1000; 5000; 5000]%Z.
Proof. split; reflexivity. Qed.


(** ** The wallet endpoints *)

Section WalletFacts.
Context `{B : JsBuiltins} {any : Type}.

Lemma executeSwap_unfold (quote : Jupiter.JupiterQuote any) walletAddress txs w :
  Wallet.executeSwap quote walletAddress txs w
  = if Jupiter.safe (Jupiter.verifyTransactionSafety quote) then
      (Wallet.ok (Wallet.jupiter_executeSwap quote walletAddress w),
       JsMap.set (Wallet.id (Wallet.jupiter_executeSwap quote walletAddress w))
         (Wallet.jupiter_executeSwap quote walletAddress w) txs)
    else
      (Wallet.fail ("Transaction not safe: "
                    +:+ String.concat ", "
                          (Jupiter.warnings (Jupiter.verifyTransactionSafety quote))),
       txs).
Proof.
  unfold Wallet.executeSwap.
  by destruct (Jupiter.safe (Jupiter.verifyTransactionSafety quote)).
Qed.

(** [executeSwap] refuses a quote that [verifyTransactionSafety] finds
    unsafe: the answer is a failure that lists the warnings and the store
    is untouched.  A safe quote gives a pending transaction for the given
    wallet and the input token of the quote; the store then returns it
    under its id and lists it for its wallet, and transactions under other
    ids are as before. *)
Theorem executeSwap_spec (quote : Jupiter.JupiterQuote any) walletAddress
    (txs : Wallet.Transactions) w :
  let out := Wallet.executeSwap quote walletAddress txs w in
  (Jupiter.safe (Jupiter.verifyTransactionSafety quote) = false →
     out = (Wallet.fail ("Transaction not safe: "
                         +:+ String.concat ", "
                               (Jupiter.warnings (Jupiter.verifyTransactionSafety quote))),
            txs))
  ∧ (Jupiter.safe (Jupiter.verifyTransactionSafety quote) = true →
     ∃ tx, out.1 = Wallet.ok tx
           ∧ Wallet.walletAddress tx = walletAddress
           ∧ Wallet.status tx = Wallet.pending
           ∧ Wallet.token tx = Jupiter.inputMint quote
           ∧ Wallet.timestamp tx = Date_now w
           ∧ Wallet.getTransaction (Wallet.id tx) out.2 = Wallet.ok tx
           ∧ tx ∈ default [] (Wallet.data (Wallet.getWalletTransactions walletAddress out.2))
           ∧ ∀ other, other ≠ Wallet.id tx →
                      Wallet.getTransaction other out.2 = Wallet.getTransaction other txs).
Proof.
  intros out. subst out. rewrite executeSwap_unfold. split.
  - by intros ->.
  - intros ->. eexists. split; [done |]. simpl.
    repeat split.
    + unfold Wallet.getTransaction. by rewrite JsMapFacts.get_set_eq.
    + apply list_elem_of_In, filter_In. split.
      * apply list_elem_of_In, JsMapFacts.elem_of_values_set.
      * by apply bool_decide_eq_true.
    + intros other Hne. unfold Wallet.getTransaction.
      by rewrite JsMapFacts.get_set_ne.
Qed.

Lemma transactions_reachable_inv (txs : Wallet.Transactions) :
  transactions_reachable (any := any) txs →
  NoDup (JsMap.keys txs) ∧ ∀ k tx, (k, tx) ∈ txs → Wallet.id tx = k.
Proof.
  induction 1 as [| quote walletAddress txs w Hr [IHn IHk]].
  - split; [constructor |]. by intros k tx ?%elem_of_nil.
  - rewrite executeSwap_unfold.
    destruct (Jupiter.safe (Jupiter.verifyTransactionSafety quote)); [| done].
    simpl. split; [by apply JsMapFacts.keys_set_NoDup |].
    intros k tx Hin.
    apply JsMapFacts.elem_of_get in Hin; [| by apply JsMapFacts.keys_set_NoDup].
    set (new := Wallet.jupiter_executeSwap quote walletAddress w) in *.
    destruct (decide (Wallet.id new = k)) as [<- | Hne].
    + rewrite JsMapFacts.get_set_eq in Hin. by injection Hin as <-.
    + rewrite JsMapFacts.get_set_ne in Hin by done.
      by apply IHk, JsMapFacts.get_Some_elem_of.
Qed.

(** [getTransaction] fails with "Transaction not found" exactly for the
    ids the store does not hold.  [getWalletTransactions] always succeeds,
    with an empty list for a wallet without transactions, and lists
    exactly the transactions that [getTransaction] returns under their own
    id and that belong to the wallet. *)
Theorem transaction_store_spec (txs : Wallet.Transactions) :
  transactions_reachable (any := any) txs →
  (∀ k, Wallet.getTransaction k txs = Wallet.fail "Transaction not found"
        ↔ k ∉ JsMap.keys txs)
  ∧ (∀ k tx, Wallet.getTransaction k txs = Wallet.ok tx → Wallet.id tx = k)
  ∧ (∀ a, Wallet.success (Wallet.getWalletTransactions a txs) = true)
  ∧ (∀ a tx, tx ∈ default [] (Wallet.data (Wallet.getWalletTransactions a txs))
             ↔ Wallet.getTransaction (Wallet.id tx) txs = Wallet.ok tx
               ∧ Wallet.walletAddress tx = a).
Proof.
  intros [Hn Hk]%transactions_reachable_inv.
  split; [| split; [| split]].
  - intros k. rewrite <- JsMapFacts.get_None_keys. unfold Wallet.getTransaction.
    destruct (JsMap.get k txs); split; done.
  - intros k tx. unfold Wallet.getTransaction.
    destruct (JsMap.get k txs) as [tx' |] eqn:E; [| done].
    intros [= <-]. by apply (Hk k), JsMapFacts.get_Some_elem_of.
  - done.
  - intros a tx. simpl. unfold JsMap.values, Wallet.getTransaction.
    rewrite list_elem_of_In, filter_In, <- list_elem_of_In, bool_decide_eq_true,
      list_elem_of_fmap.
    split.
    + intros [([k tx'] & -> & Hin) Ha]. simpl in *. split; [| done].
      rewrite (Hk _ _ Hin). by rewrite (JsMapFacts.elem_of_get _ _ _ Hn Hin).
    + intros [Hg Ha]. split; [| done].
      destruct (JsMap.get (Wallet.id tx) txs) as [tx' |] eqn:E; [| done].
      injection Hg as ->. exists (Wallet.id tx, tx). split; [done |].
      by apply JsMapFacts.get_Some_elem_of.
Qed.

(** The two quote functions fill in a slippage of 50 when none is given.
    They differ on a slippage of zero: [getBasicQuote] keeps it,
    [getUltraQuote] replaces it by 50.  On every other slippage they return
    the same quote.  Either quote has no price impact and an empty route,
    so it is safe iff its slippage is at most 100. *)
Theorem quote_slippage_defaults (inputMint outputMint : string) (amount : Q)
    (slippage : option Q) (direct legacy : option bool) :
  let options := Some {| Wallet.opt_slippageBps := slippage;
                         Wallet.onlyDirectRoutes := direct;
                         Wallet.asLegacyTransaction := legacy |} in
  let basic : Jupiter.JupiterQuote any :=
    Wallet.getBasicQuote inputMint outputMint amount slippage in
  let ultra : Jupiter.JupiterQuote any :=
    Wallet.getUltraQuote inputMint outputMint amount options in
  (slippage = None → Jupiter.slippageBps basic = 50 ∧ ultra = basic)
  ∧ (∀ b, slippage = Some b → ¬ b == 0 →
          Jupiter.slippageBps basic = b ∧ ultra = basic)
  ∧ (∀ b, slippage = Some b → b == 0 →
          Jupiter.slippageBps basic = b ∧ Jupiter.slippageBps ultra = 50)
  ∧ Wallet.getUltraQuote (any := any) inputMint outputMint amount None
    = Wallet.getBasicQuote inputMint outputMint amount None
  ∧ (Jupiter.safe (Jupiter.verifyTransactionSafety basic) = true
     ↔ Jupiter.slippageBps basic <= 100)
  ∧ (Jupiter.safe (Jupiter.verifyTransactionSafety ultra) = true
     ↔ Jupiter.slippageBps ultra <= 100).
Proof.
  intros options basic ultra. subst options basic ultra.
  assert (∀ q : Jupiter.JupiterQuote any,
            Jupiter.priceImpactPct q = 0 → Jupiter.route q = [] →
            (Jupiter.safe (Jupiter.verifyTransactionSafety q) = true
             ↔ Jupiter.slippageBps q <= 100)) as Hsafe.
  { intros q Hp Hr. unfold Jupiter.verifyTransactionSafety, push_if.
    rewrite Hp, Hr. simpl.
    destruct (Num.gt (Jupiter.slippageBps q) 100) eqn:E; simpl.
    - apply NumFacts.gt_spec in E. split; [done |]. intros ?. lra.
    - apply NumFacts.gt_false in E. done. }
  unfold Wallet.getBasicQuote, Wallet.getUltraQuote, Wallet.number_or in *.
  split; [| split; [| split; [| split; [| split]]]].
  - by intros ->.
  - intros b -> Hb. simpl.
    destruct (Qeq_bool b 0) eqn:E; [by apply Qeq_bool_iff in E |]. done.
  - intros b -> Hb. simpl. by rewrite (proj2 (Qeq_bool_iff b 0) Hb).
  - done.
  - by apply Hsafe.
  - by apply Hsafe.
Qed.

End WalletFacts.

(** ** The quote endpoint *)

Section QuoteFacts.
Context `{B : JsBuiltins} {any : Type}.

(** [flagUnsafeInteractions] is [checkContract] followed by the verdict
    on its result. *)
Lemma flagUnsafeInteractions_flag_of_result a (s : RugPullChecker * World) :
  flagUnsafeInteractions a s
  = match checkContract a s with
    | (inl e, s') => (inl e, s')
    | (inr result, s') => (inr (flag_of_result result), s')
    end.
Proof.
  unfold flagUnsafeInteractions, flag_of_result.
  destruct (checkContract a s) as [[e | r] s']; [done |].
  by repeat case_match.
Qed.

Lemma resume_call_resume call calls (s : RugPullChecker * World) :
  resume (call :: calls) s
  = let '(r, s1) := QuoteEndpoint.resume_call call s in
    let '(rs, s2) := resume calls s1 in (r :: rs, s2).
Proof.
  destruct call as [a [c |]]; simpl; [by destruct (resume calls s) |].
  destruct (fresh_check a s) as [o s1]. by destruct (resume calls s1).
Qed.

Lemma resume_call_built a (s s0 : RugPullChecker * World) r :
  cache_wf s.1 → cache_wf s0.1 →
  (QuoteEndpoint.resume_call (a, cache_probe s0.1 s0.2 a) s).1 = fulfilled r →
  r = build_result a (indicators r) (timestamp r).
Proof.
  intros Hwf Hwf0. destruct (cache_probe s0.1 s0.2 a) as [c |] eqn:E; simpl.
  - intros [= <-]. apply cache_probe_Some in E as [E _]. by apply Hwf0 in E.
  - destruct s as [this w]. rewrite fresh_check_spec.
    destruct (analyzeContract a w) as [[e | i] w1]; simpl; [done |].
    by intros [= <-].
Qed.

Lemma resume_call_wf call (s : RugPullChecker * World) :
  cache_wf s.1 → cache_wf (QuoteEndpoint.resume_call call s).2.1.
Proof.
  intros Hwf. destruct call as [a [c |]]; simpl; [done |].
  destruct s as [this w]. pose proof (fresh_check_wf this w a Hwf).
  by destruct (fresh_check a (this, w)).
Qed.

(** A lone call of the batch is a [checkContract]. *)
Lemma resume_call_checkContract a (s : RugPullChecker * World) :
  QuoteEndpoint.resume_call (a, cache_probe s.1 s.2 a) s
  = (settled (checkContract a s).1, (checkContract a s).2).
Proof.
  rewrite checkContract_unfold. unfold QuoteEndpoint.resume_call.
  destruct (cache_probe s.1 s.2 a); [done |]. by destruct (fresh_check a s).
Qed.

(** With the thresholds as configured [getQuote] never returns a quote:
    for every request the answer is a failure without data.  When both
    safety checks come back, the failure names the input token and gives
    the red tier with its signals as the reason. *)
Theorem getQuote_always_blocked (params : Wallet.QuoteParams) this w :
  cache_wf this →
  let out := QuoteEndpoint.getQuote (any := any) params (this, w) in
  let x1 := QuoteEndpoint.resume_call
              (Wallet.inputMint params, cache_probe this w (Wallet.inputMint params))
              (this, w) in
  let x2 := QuoteEndpoint.resume_call
              (Wallet.outputMint params, cache_probe this w (Wallet.outputMint params))
              x1.2 in
  Wallet.success out.1 = false
  ∧ Wallet.data out.1 = None
  ∧ out.2 = x2.2
  ∧ (∀ r1 r2, x1.1 = fulfilled r1 → x2.1 = fulfilled r2 →
       Wallet.error out.1
       = Some ("Input token unsafe: Contract flagged as red: "
               +:+ String.concat ", " (miterSignals r1))).
Proof.
  intros Hwf out x1 x2. subst out. unfold QuoteEndpoint.getQuote. cbn [fst snd].
  pose proof (resume_call_built (Wallet.inputMint params) (this, w) (this, w)) as Hb1.
  cbn [fst snd] in Hb1. fold x1 in Hb1 |- *.
  destruct x1 as [o1 s1] eqn:E1. cbn [fst snd] in *. fold x2.
  destruct x2 as [o2 s2] eqn:E2. cbn [fst snd] in *.
  destruct o1 as [r1 | e1]; simpl.
  - destruct o2 as [r2 | e2]; simpl.
    + specialize (Hb1 r1 Hwf Hwf eq_refl).
      destruct (build_result_red (Wallet.inputMint params) (indicators r1) (timestamp r1))
        as [Hred Hunsafe].
      rewrite <- Hb1 in Hred, Hunsafe.
      unfold flag_of_result. rewrite Hunsafe, Hred. simpl.
      split; [done |]. split; [done |]. split; [done |]. by intros ? ? [= <-] _.
    + split; [done |]. split; [done |]. split; [done |]. by intros ? ? _ [= ].
  - destruct o2 as [r2 | e2]; simpl;
      (split; [done |]); (split; [done |]); (split; [done |]); by intros ? ? [= ].
Qed.

End QuoteFacts.

(** ** The token endpoints *)

(** [addToken] succeeds iff the address and the symbol of the token are
    not empty.  A refused token leaves the library as it was; an accepted
    one is what [getTokenInfo] returns for its address afterwards.  So no
    library the endpoint can produce has an entry under the empty address,
    and [getTokenInfo ""] always fails. *)
Theorem addToken_spec (token : Analyzer.TokenLibraryEntry) (lib : Analyzer.TokenLibrary) :
  let out := ContractEndpoints.addToken token lib in
  (ContractEndpoints.success out.1 = true
   ↔ Analyzer.address token ≠ "" ∧ Analyzer.symbol token ≠ "")
  ∧ (ContractEndpoints.success out.1 = false → out.2 = lib)
  ∧ (ContractEndpoints.success out.1 = true →
     ContractEndpoints.getTokenInfo (Analyzer.address token) out.2 = Wallet.ok token)
  ∧ (ContractEndpoints.endpoint_reachable lib →
     ContractEndpoints.getTokenInfo "" lib = Wallet.fail "Token not found in library").
Proof.
  intros out. subst out. unfold ContractEndpoints.addToken.
  split; [| split; [| split]].
  - destruct (Analyzer.address token), (Analyzer.symbol token); simpl;
      split; try done; intros [? ?]; done.
  - by destruct (ContractEndpoints.is_empty (Analyzer.address token)
                 || ContractEndpoints.is_empty (Analyzer.symbol token)).
  - destruct (ContractEndpoints.is_empty (Analyzer.address token)
              || ContractEndpoints.is_empty (Analyzer.symbol token)); [done |].
    intros _. simpl. unfold ContractEndpoints.getTokenInfo, Analyzer.getToken,
      Analyzer.addTokenToLibrary. by rewrite JsMapFacts.get_set_eq.
  - unfold ContractEndpoints.getTokenInfo, Analyzer.getToken.
    induction 1 as [| t l Hr IH]; [done |].
    unfold ContractEndpoints.addToken.
    destruct (ContractEndpoints.is_empty (Analyzer.address t)) eqn:E; simpl; [done |].
    destruct (ContractEndpoints.is_empty (Analyzer.symbol t)); simpl; [done |].
    unfold Analyzer.addTokenToLibrary. rewrite JsMapFacts.get_set_ne; [done |].
    intros Heq. rewrite Heq in E. done.
Qed.

Lemma addToken_spec_witness :
  ContractEndpoints.getTokenInfo "scam-address"
    (ContractEndpoints.addToken unverified_token Analyzer.initializeTokenLibrary).2
  = Wallet.ok unverified_token.
Proof.
  destruct (addToken_spec unverified_token Analyzer.initializeTokenLibrary)
    as (_ & _ & H & _).
  apply H. reflexivity.
Defined.

(** ** Concrete runs of the wallet *)

Lemma executeSwap_spec_witness :
  Wallet.executeSwap
      (R := placeholder_runtime) (B := sample_builtins) quote_over_limits "w1" one_swap 2000%Z
  = (Wallet.fail
       ("Transaction not safe: "
        +:+ String.concat ", "
              (Jupiter.warnings (Jupiter.verifyTransactionSafety quote_over_limits))),
     one_swap).
Proof.
  destruct (executeSwap_spec
      (R := placeholder_runtime) (B := sample_builtins) quote_over_limits "w1" one_swap 2000%Z)
    as (H & _).
  apply H. reflexivity.
Defined.

Example executeSwap_unsafe_message :
  Wallet.error
    (Wallet.executeSwap
        (R := placeholder_runtime) (B := sample_builtins) quote_over_limits "w1" one_swap 2000%Z).1
  = Some "Transaction not safe: High price impact detected (>5%), High slippage tolerance (>1%), Complex routing may increase failure risk".
Proof. reflexivity. Qed.

Lemma one_swap_reachable :
  transactions_reachable (R := placeholder_runtime) (B := sample_builtins) (any := string) one_swap.
Proof.
  apply (transactions_swap (R := placeholder_runtime) (B := sample_builtins)
           quote_at_limits "w1" JsMap.empty 1000%Z), transactions_new.
Qed.

Lemma transaction_store_spec_witness :
  Wallet.success (Wallet.getWalletTransactions "w2" one_swap) = true.
Proof.
  destruct (transaction_store_spec
      (R := placeholder_runtime) (B := sample_builtins) (any := string) one_swap)
    as (_ & _ & H & _); [apply one_swap_reachable |].
  apply H.
Defined.

(** A wallet without transactions gets an empty list, an unknown id the
    not-found failure. *)
Example empty_wallet_and_unknown_id :
  Wallet.getWalletTransactions "w2" one_swap = Wallet.ok []
  ∧ Wallet.getTransaction "tx_unknown" one_swap = Wallet.fail "Transaction not found"
  ∧ JsMap.keys one_swap = ["tx_n_abcdefghi"].
Proof. repeat split; reflexivity. Qed.

Lemma quote_slippage_defaults_witness :
  Jupiter.slippageBps
    (Wallet.getBasicQuote
        (R := placeholder_runtime) (B := sample_builtins) (any := string) "in" "out" 1000 (Some 0))
  = 0
  ∧ Jupiter.slippageBps
      (Wallet.getUltraQuote
          (R := placeholder_runtime) (B := sample_builtins) (any := string) "in" "out" 1000
         (Some {| Wallet.opt_slippageBps := Some 0; Wallet.onlyDirectRoutes := None;
                  Wallet.asLegacyTransaction := None |}))
    = 50.
Proof.
  destruct (quote_slippage_defaults
      (R := placeholder_runtime) (B := sample_builtins) (any := string)
              "in" "out" 1000 (Some 0) None None) as (_ & _ & H & _).
  apply (H 0); reflexivity.
Defined.

Lemma getQuote_always_blocked_witness :
  Wallet.success
    (QuoteEndpoint.getQuote (R := placeholder_runtime) (B := sample_builtins) (any := string)
       zero_slippage_params (checked_at_1000, 2000%Z)).1 = false.
Proof.
  destruct (getQuote_always_blocked
      (R := placeholder_runtime) (B := sample_builtins) (any := string)
              zero_slippage_params checked_at_1000 2000%Z checked_at_1000_wf)
    as (H & _).
  exact H.
Defined.

Example getQuote_blocked_message :
  Wallet.error
    (QuoteEndpoint.getQuote (R := placeholder_runtime) (B := sample_builtins) (any := string)
       zero_slippage_params (new_RugPullChecker, 1000%Z)).1
  = Some "Input token unsafe: Contract flagged as red: HIGH_RISK, OWNERSHIP_NOT_RENOUNCED".
Proof. reflexivity. Qed.
